(** * test-serial: echo client and echo server over a serial port

    A shallow embedding of [test-serial.py] and the properties of its
    echo client, echo server and adapter constructors.

    Layout:
    - [Py]: the Python values the script manipulates ([bytes], [str]),
      the UTF-8 codec behind [bytes.decode()] / [str.encode()],
      [str.replace] and f-string formatting of an [int];
    - [Serial]: the serial port as the script sees it (pyserial's
      [in_waiting], [read], [readline], [write]) with an event log;
    - [Exec]: a state-and-exception monad for the script's statements;
    - [TestSerial]: the script itself, definition by definition;
    - the theorems. *)

From Stdlib Require Import ZArith List String Ascii Bool Lia DecimalString.
From Stdlib.Strings Require Import Byte.
From Stdlib Require DecimalZ DecimalPos.
Import ListNotations.
Open Scope Z_scope.
Open Scope list_scope.

(* ===================================================================== *)
(** * Python values *)
(* ===================================================================== *)

Module Py.

(** [bytes]: an immutable sequence of integers in [0, 256). *)
Definition bytes := list byte.

(** [str]: an immutable sequence of Unicode code points. *)
Definition str := list Z.

Definition ord_byte (b : byte) : Z := Z.of_N (Byte.to_N b).

Definition byte_of (z : Z) : byte :=
  match Byte.of_N (Z.to_N z) with
  | Some b => b
  | None => x00
  end.

(** A [bytes] literal [b"..."] and a [str] literal ["..."]. *)
Definition b_lit (s : string) : bytes := list_byte_of_string s.

Definition s_lit (s : string) : str :=
  map (fun a => Z.of_N (N_of_ascii a)) (list_ascii_of_string s).

(** [x == y] on [bytes] (and [x != y] as its negation). *)
Fixpoint bytes_eqb (x y : bytes) : bool :=
  match x, y with
  | [], [] => true
  | a :: x', c :: y' => Byte.eqb a c && bytes_eqb x' y'
  | _, _ => false
  end.

(** ** UTF-8, the default codec of [bytes.decode()] and [str.encode()] *)

Definition is_cont (z : Z) : bool := (0x80 <=? z) && (z <=? 0xBF).

(** [bytes.decode()] with [errors="strict"]: [None] stands for
    [UnicodeDecodeError].  Well-formed sequences are those of the
    Unicode standard: no overlong forms, no surrogates, nothing above
    U+10FFFF. *)
Fixpoint utf8_decode (bs : bytes) : option str :=
  match bs with
  | [] => Some []
  | b0 :: r0 =>
    let z0 := ord_byte b0 in
    if z0 <? 0x80 then
      option_map (cons z0) (utf8_decode r0)
    else if (0xC2 <=? z0) && (z0 <=? 0xDF) then
      match r0 with
      | b1 :: r1 =>
        let z1 := ord_byte b1 in
        if is_cont z1 then
          option_map (cons ((z0 - 0xC0) * 64 + (z1 - 0x80))) (utf8_decode r1)
        else None
      | _ => None
      end
    else if (0xE0 <=? z0) && (z0 <=? 0xEF) then
      match r0 with
      | b1 :: b2 :: r2 =>
        let z1 := ord_byte b1 in
        let z2 := ord_byte b2 in
        if is_cont z1 && is_cont z2
           && (negb (z0 =? 0xE0) || (0xA0 <=? z1))
           && (negb (z0 =? 0xED) || (z1 <=? 0x9F)) then
          option_map
            (cons ((z0 - 0xE0) * 4096 + (z1 - 0x80) * 64 + (z2 - 0x80)))
            (utf8_decode r2)
        else None
      | _ => None
      end
    else if (0xF0 <=? z0) && (z0 <=? 0xF4) then
      match r0 with
      | b1 :: b2 :: b3 :: r3 =>
        let z1 := ord_byte b1 in
        let z2 := ord_byte b2 in
        let z3 := ord_byte b3 in
        if is_cont z1 && is_cont z2 && is_cont z3
           && (negb (z0 =? 0xF0) || (0x90 <=? z1))
           && (negb (z0 =? 0xF4) || (z1 <=? 0x8F)) then
          option_map
            (cons ((z0 - 0xF0) * 262144 + (z1 - 0x80) * 4096
                   + (z2 - 0x80) * 64 + (z3 - 0x80)))
            (utf8_decode r3)
        else None
      | _ => None
      end
    else None
  end.

(** One code point of [str.encode()]: [None] stands for
    [UnicodeEncodeError] (a lone surrogate, or no code point at all). *)
Definition utf8_encode_char (c : Z) : option bytes :=
  if (0 <=? c) && (c <? 0x80) then
    Some [byte_of c]
  else if (0x80 <=? c) && (c <? 0x800) then
    Some [byte_of (0xC0 + c / 64); byte_of (0x80 + c mod 64)]
  else if (0x800 <=? c) && (c <? 0x10000) then
    if (0xD800 <=? c) && (c <=? 0xDFFF) then None
    else Some [byte_of (0xE0 + c / 4096);
               byte_of (0x80 + (c / 64) mod 64);
               byte_of (0x80 + c mod 64)]
  else if (0x10000 <=? c) && (c <=? 0x10FFFF) then
    Some [byte_of (0xF0 + c / 262144);
          byte_of (0x80 + (c / 4096) mod 64);
          byte_of (0x80 + (c / 64) mod 64);
          byte_of (0x80 + c mod 64)]
  else None.

Fixpoint utf8_encode (s : str) : option bytes :=
  match s with
  | [] => Some []
  | c :: r =>
    match utf8_encode_char c, utf8_encode r with
    | Some x, Some y => Some (x ++ y)
    | _, _ => None
    end
  end.

(** ** [str.replace(old, new)] *)

Fixpoint starts_with (pre s : str) : bool :=
  match pre, s with
  | [], _ => true
  | _ :: _, [] => false
  | p :: pre', c :: s' => (p =? c) && starts_with pre' s'
  end.

(** Left-to-right scan: at a position where [old] starts, [new] is
    emitted and the scan resumes after the occurrence ([skip] counts
    the characters of the occurrence still to pass over), so the
    occurrences replaced do not overlap. *)
Fixpoint replace_from (old new : str) (skip : nat) (s : str) : str :=
  match s with
  | [] => []
  | c :: rest =>
    match skip with
    | S k => replace_from old new k rest
    | O =>
      if starts_with old s
      then new ++ replace_from old new (Nat.pred (List.length old)) rest
      else c :: replace_from old new O rest
    end
  end.

(** With an empty [old], Python inserts [new] before every character
    and at the end. *)
Definition str_replace (s old new : str) : str :=
  match old with
  | [] => new ++ flat_map (fun c => c :: new) s
  | _ :: _ => replace_from old new O s
  end.

(** ** f-string formatting of an [int]: [f"{run}"] *)

Definition decimal (z : Z) : string := NilZero.string_of_int (Z.to_int z).

Definition format_int (z : Z) : str := s_lit (decimal z).

(** [range(n)] *)
Definition range (n : Z) : list Z := map Z.of_nat (seq 0 (Z.to_nat n)).

End Py.

Import Py.

(* ===================================================================== *)
(** * The serial port *)
(* ===================================================================== *)

Module Serial.

(** What crosses the port, in the order it happens. *)
Inductive io_event :=
| Wrote (data : bytes)
| ReadLine (line : bytes)
| Read (data : bytes).

(** [serial.rs485.RS485Settings]; the delays are [None] or a number of
    seconds. *)
Record RS485Settings := {
  rts_level_for_tx : bool;
  rts_level_for_rx : bool;
  loopback : bool;
  delay_before_tx : option Z;
  delay_before_rx : option Z
}.

(** [RS485Settings()] with its default arguments. *)
Definition RS485Settings_default : RS485Settings :=
  {| rts_level_for_tx := true;
     rts_level_for_rx := false;
     loopback := false;
     delay_before_tx := None;
     delay_before_rx := None |}.

(** The port.  [in_buffer] holds the bytes received and not yet
    read; [incoming] lists what the peer delivers from now on, chunk by
    chunk, each chunk arriving before a pending read times out; when
    [incoming] is empty nothing more arrives and a pending read times
    out.  [log] records the traffic.  On a line that is not opened
    yet, [on_open] holds the bytes that arrive while it is being
    opened, after the driver has reset its input buffer and before the
    next statement of the program runs. *)
Record Port := {
  name : string;
  baudrate : Z;
  timeout : Z;
  rs485_mode : option RS485Settings;
  in_buffer : bytes;
  on_open : bytes;
  incoming : list bytes;
  log : list io_event
}.

Definition newline : byte := "010"%byte.

(** The first line of a buffer, terminator included, and what follows. *)
Fixpoint split_line (buf : bytes) : option (bytes * bytes) :=
  match buf with
  | [] => None
  | c :: r =>
    if Byte.eqb c newline then Some ([c], r)
    else match split_line r with
         | Some (l, rest) => Some (c :: l, rest)
         | None => None
         end
  end.

(** [readline()]: the bytes up to and including the next newline; when
    the timeout expires first, whatever was received, possibly nothing. *)
Fixpoint readline_from (buf : bytes) (inc : list bytes)
  : bytes * (bytes * list bytes) :=
  match split_line buf with
  | Some (l, rest) => (l, (rest, inc))
  | None =>
    match inc with
    | [] => (buf, ([], []))
    | chunk :: more => readline_from (buf ++ chunk) more
    end
  end.

Definition set_io (p : Port) (buf : bytes) (inc : list bytes)
  (evs : list io_event) : Port :=
  {| name := name p; baudrate := baudrate p; timeout := timeout p;
     rs485_mode := rs485_mode p;
     in_buffer := buf; on_open := on_open p;
     incoming := inc; log := log p ++ evs |}.

(** [port.in_waiting] *)
Definition in_waiting (p : Port) : Z := Z.of_nat (List.length (in_buffer p)).

(** [port.readline()] *)
Definition readline (p : Port) : bytes * Port :=
  let '(l, (buf, inc)) := readline_from (in_buffer p) (incoming p) in
  (l, set_io p buf inc [ReadLine l]).

(** [read(size)]: blocks until [size] bytes are there or the timeout
    expires. *)
Fixpoint read_from (size : nat) (buf : bytes) (inc : list bytes)
  : bytes * (bytes * list bytes) :=
  if (size <=? List.length buf)%nat then (firstn size buf, (skipn size buf, inc))
  else match inc with
       | [] => (buf, ([], []))
       | chunk :: more => read_from size (buf ++ chunk) more
       end.

(** [port.read(size)] *)
Definition read (size : Z) (p : Port) : bytes * Port :=
  let '(d, (buf, inc)) := read_from (Z.to_nat size) (in_buffer p) (incoming p) in
  (d, set_io p buf inc [Read d]).

(** [port.write(data)] *)
Definition write (data : bytes) (p : Port) : Port :=
  set_io p (in_buffer p) (incoming p) [Wrote data].

(** [serial.Serial(device, baudrate=..., timeout=...)] on a device whose
    line is in state [line]: the settings are applied and the input
    buffer is reset, which discards the bytes received before the
    opening; when the call returns the buffer holds the bytes that
    arrived since that reset.  Nothing is read or written. *)
Definition open (line : Port) (device : string) (baud tmo : Z) : Port :=
  {| name := device; baudrate := baud; timeout := tmo;
     rs485_mode := None;
     in_buffer := on_open line; on_open := [];
     incoming := incoming line;
     log := log line |}.

(** [port.rs485_mode = settings] *)
Definition set_rs485_mode (s : RS485Settings) (p : Port) : Port :=
  {| name := name p; baudrate := baudrate p; timeout := timeout p;
     rs485_mode := Some s;
     in_buffer := in_buffer p; on_open := on_open p;
     incoming := incoming p; log := log p |}.

(** The payloads written, in order. *)
Fixpoint writes_of (evs : list io_event) : list bytes :=
  match evs with
  | [] => []
  | Wrote d :: r => d :: writes_of r
  | _ :: r => writes_of r
  end.

(** The lines read, in order. *)
Fixpoint lines_of (evs : list io_event) : list bytes :=
  match evs with
  | [] => []
  | ReadLine l :: r => l :: lines_of r
  | _ :: r => lines_of r
  end.

End Serial.

(* ===================================================================== *)
(** * Statements: state and exceptions *)
(* ===================================================================== *)

Module Exec.

(** The exceptions the script can meet. *)
Inductive exn :=
| NameError (name : string)
| UnicodeDecodeError (object : bytes)
| UnicodeEncodeError (object : str)
| InvalidSerial5Reponse (response expected_response : bytes)
| SystemExit (code : option Z).

(** [except Exception] catches everything but [SystemExit]. *)
Definition is_Exception (e : exn) : bool :=
  match e with
  | SystemExit _ => false
  | _ => true
  end.

(** What the script prints: [print("TEST OK")], [print(f"ERROR: {e}")]
    and [print(f"Failed to decode payload: {payload}", ...)]. *)
Inductive printed :=
| TEST_OK
| ERROR (e : exn)
| Failed_to_decode_payload (payload : bytes).

(** The process's world: the serial line and the two output streams. *)
Record World := {
  port : Serial.Port;
  stdout : list printed;
  stderr : list printed
}.

Definition M (A : Type) : Type := World -> World * (exn + A).

Definition ret {A} (a : A) : M A := fun w => (w, inr a).

Definition bind {A B} (c : M A) (k : A -> M B) : M B :=
  fun w =>
    match c w with
    | (w', inl e) => (w', inl e)
    | (w', inr a) => k a w'
    end.

Definition raise {A} (e : exn) : M A := fun w => (w, inl e).

(** [try: body  except <those e with handler e = Some h>: h] *)
Definition try_except {A} (body : M A) (handler : exn -> option (M A)) : M A :=
  fun w =>
    match body w with
    | (w', inl e) =>
      match handler e with
      | Some h => h w'
      | None => (w', inl e)
      end
    | (w', inr a) => (w', inr a)
    end.

Definition with_port (f : Serial.Port -> Serial.Port) : M unit :=
  fun w => ({| port := f (port w); stdout := stdout w; stderr := stderr w |},
            inr tt).

Definition port_readline : M bytes :=
  fun w =>
    let '(l, p) := Serial.readline (port w) in
    ({| port := p; stdout := stdout w; stderr := stderr w |}, inr l).

Definition port_read (size : Z) : M bytes :=
  fun w =>
    let '(d, p) := Serial.read size (port w) in
    ({| port := p; stdout := stdout w; stderr := stderr w |}, inr d).

Definition port_write (data : bytes) : M unit := with_port (Serial.write data).

Definition port_in_waiting : M Z := fun w => (w, inr (Serial.in_waiting (port w))).

(** [print(x)] *)
Definition print (x : printed) : M unit :=
  fun w => ({| port := port w; stdout := stdout w ++ [x]; stderr := stderr w |},
            inr tt).

(** [print(x, file=sys.stderr)] *)
Definition print_stderr (x : printed) : M unit :=
  fun w => ({| port := port w; stdout := stdout w; stderr := stderr w ++ [x] |},
            inr tt).

(** [payload.decode()] *)
Definition decode (payload : bytes) : M str :=
  match utf8_decode payload with
  | Some s => ret s
  | None => raise (UnicodeDecodeError payload)
  end.

(** [text.encode()] *)
Definition encode (text : str) : M bytes :=
  match utf8_encode text with
  | Some d => ret d
  | None => raise (UnicodeEncodeError text)
  end.

(** [for x in xs: body(x)] *)
Fixpoint for_each {A} (xs : list A) (body : A -> M unit) : M unit :=
  match xs with
  | [] => ret tt
  | x :: r => bind (body x) (fun _ => for_each r body)
  end.

End Exec.

Import Exec.

Declare Scope exec_scope.
Delimit Scope exec_scope with exec.
Notation "x <- c ;; k" := (bind c (fun x => k))
  (at level 61, c at next level, right associativity) : exec_scope.
Notation "c ;; k" := (bind c (fun _ => k))
  (at level 61, right associativity) : exec_scope.
Open Scope exec_scope.

(* ===================================================================== *)
(** * The script *)
(* ===================================================================== *)

Module TestSerial.

Definition LF : string := String "010"%char EmptyString.

(** An instance of [SerialInterface] or of [RS485Interface]: its
    [device] attribute; its [port] attribute is the port of the world. *)
Record Interface := { device : string }.

(** [ser.in_waiting], the argument of the draining [read]: no name
    [ser] is bound, neither among the parameters of [__init__] ([self],
    [device], [baudrate], [timeout]) nor at module level nor among the
    builtins, so loading it raises [NameError]. *)
Definition ser_in_waiting : M Z := raise (NameError "ser").

(** [SerialInterface.__init__(self, device, baudrate=115200, timeout=2)] *)
Definition SerialInterface_init (dev : string) (baud tmo : Z) : M Interface :=
  let self := {| device := dev |} in
  with_port (fun line => Serial.open line dev baud tmo) ;;
  (* drain RX buffer *)
  n <- port_in_waiting ;;
  (if 0 <? n then
     size <- ser_in_waiting ;;
     _ <- port_read size ;;
     ret tt
   else ret tt) ;;
  ret self.

(** [SerialInterface.echo_client]: one pass of the loop body. *)
Definition echo_client_run (run : Z) : M unit :=
  let payload := s_lit "TX_run_" ++ format_int run ++ s_lit LF in
  expected_response <- encode (s_lit "RX_run_" ++ format_int run ++ s_lit LF) ;;
  data <- encode payload ;;
  port_write data ;;
  response <- port_readline ;;
  if negb (bytes_eqb response expected_response)
  then raise (InvalidSerial5Reponse response expected_response)
  else ret tt.

(** [SerialInterface.echo_client(self, num_runs=10)]; [None] is the call
    that leaves the argument out. *)
Definition num_runs_of (arg : option Z) : Z :=
  match arg with
  | Some n => n
  | None => 10
  end.

Definition echo_client (self : Interface) (arg : option Z) : M unit :=
  let num_runs := num_runs_of arg in
  for_each (range (num_runs + 1)) echo_client_run.

(** [SerialInterface.echo_server]: one pass of [while True].  The
    handler sees [payload] as [readline] returned it, since the
    assignment of the decoded text did not happen. *)
Definition echo_server_pass (self : Interface) : M unit :=
  payload <- port_readline ;;
  try_except
    (text <- decode payload ;;
     let response := str_replace text (s_lit "TX") (s_lit "RX") in
     data <- encode response ;;
     port_write data)
    (fun e =>
       match e with
       | UnicodeDecodeError _ =>
         Some (print_stderr (Failed_to_decode_payload payload))
       | _ => None
       end).

(** How far a loop without exit got when observation stops. *)
Inductive progress := Running.

(** [SerialInterface.echo_server(self)], observed for [passes] passes of
    its loop: an exception that propagates ends it, nothing else does. *)
Fixpoint echo_server (passes : nat) (self : Interface) : M progress :=
  match passes with
  | O => ret Running
  | S n => echo_server_pass self ;; echo_server n self
  end.

(** [RS485Interface.__init__(self, device, baudrate=115200, timeout=2)];
    the class inherits [echo_client] and [echo_server]. *)
Definition RS485Interface_init (dev : string) (baud tmo : Z) : M Interface :=
  let self := {| device := dev |} in
  with_port (fun line => Serial.open line dev baud tmo) ;;
  with_port (Serial.set_rs485_mode Serial.RS485Settings_default) ;;
  ret self.

(** [signal_handler]: [sys.exit()] *)
Definition signal_handler : M unit := raise (SystemExit None).

Inductive Mode := server | client.

(** The parsed command line. *)
Record Args := {
  args_device : string;
  baud : Z;
  rs485 : bool;
  response_timeout : Z;
  mode : Mode
}.

(** What [main] did when observation stops. *)
Inductive outcome :=
| Returned
| Serving.

(** [main()] after [parser.parse_args()]; the server loop is observed
    for [passes] passes. *)
Definition main (passes : nat) (args : Args) : M outcome :=
  interface <-
    (if rs485 args
     then RS485Interface_init (args_device args) (baud args) (response_timeout args)
     else SerialInterface_init (args_device args) (baud args) (response_timeout args)) ;;
  match mode args with
  | server =>
    echo_server passes interface ;;
    ret Serving
  | client =>
    try_except
      (echo_client interface None)
      (fun e =>
         if is_Exception e
         then Some (print (ERROR e) ;; raise (SystemExit (Some 1)))
         else None) ;;
    print TEST_OK ;;
    ret Returned
  end.

End TestSerial.

Import TestSerial.

(* ===================================================================== *)
(** * Vocabulary of the properties *)
(* ===================================================================== *)

(** The bytes of the request and of the awaited reply of run [k]. *)
Definition payload_bytes (k : Z) : bytes :=
  b_lit ("TX_run_" ++ decimal k ++ LF).

Definition expected_bytes (k : Z) : bytes :=
  b_lit ("RX_run_" ++ decimal k ++ LF).

(** The bytes of a line of ASCII text, terminator included. *)
Definition line (s : string) : bytes := b_lit (s ++ LF).

(** The traffic of consecutive exchanges, the first one being run
    [first]: run [k] writes its payload, then reads one line. *)
Fixpoint exchanges (first : Z) (responses : list bytes) : list Serial.io_event :=
  match responses with
  | [] => []
  | r :: rs =>
    Serial.Wrote (payload_bytes first) :: Serial.ReadLine r
      :: exchanges (first + 1) rs
  end.

(** What crossed the port between two states of the world. *)
Definition traffic (before after : World) : list Serial.io_event :=
  skipn (List.length (Serial.log (port before))) (Serial.log (port after)).

(** A call of [echo_client] from the world [w]: the traffic it causes,
    the lines it reads, how it ends. *)
Definition client_traffic (self : Interface) (arg : option Z) (w : World)
  : list Serial.io_event :=
  traffic w (fst (echo_client self arg w)).

Definition client_responses (self : Interface) (arg : option Z) (w : World)
  : list bytes :=
  Serial.lines_of (client_traffic self arg w).

Definition client_result (self : Interface) (arg : option Z) (w : World)
  : exn + unit :=
  snd (echo_client self arg w).

(** [passes] passes of [echo_server] from the world [w]: the traffic
    they cause. *)
Definition server_traffic (passes : nat) (self : Interface) (w : World)
  : list Serial.io_event :=
  traffic w (fst (echo_server passes self w)).

(** Every response of the exchanges starting at run [first] is the
    awaited one. *)
Definition all_match (first : Z) (rs : list bytes) : Prop :=
  forall i r, nth_error rs i = Some r -> r = expected_bytes (first + Z.of_nat i).

(** A payload that ends with the line separator. *)
Fixpoint terminated (d : bytes) : bool :=
  match d with
  | [] => false
  | [c] => Byte.eqb c Serial.newline
  | _ :: r => terminated r
  end.

(** An occurrence of the two bytes [TX] at the head of [l]. *)
Definition tx_here (l : bytes) : bool :=
  match l with
  | c :: x :: _ => Byte.eqb c "T"%byte && Byte.eqb x "X"%byte
  | _ => false
  end.

(** The line with every occurrence of [TX] turned into [RX], position
    by position: a byte [T] followed by a byte [X] becomes [R], every
    other byte stays. *)
Fixpoint tx_to_rx (l : bytes) : bytes :=
  match l with
  | [] => []
  | c :: r => (if tx_here l then "R"%byte else c) :: tx_to_rx r
  end.

(** The same on text. *)
Definition TX_here (s : str) : bool :=
  match s with
  | c :: x :: _ => (c =? 84) && (x =? 88)
  | _ => false
  end.

Fixpoint TX_to_RX (s : str) : str :=
  match s with
  | [] => []
  | c :: r => (if TX_here s then 82 else c) :: TX_to_RX r
  end.

(** The first byte is [X]; the first character is [X]. *)
Definition head_is_X (l : bytes) : bool :=
  match l with x :: _ => Byte.eqb x "X"%byte | [] => false end.

Definition head_is_88 (s : str) : bool :=
  match s with x :: _ => x =? 88 | [] => false end.

(** Text made of ASCII characters only. *)
Definition ascii_only (s : string) : Prop :=
  Forall (fun a => (N_of_ascii a < 128)%N) (list_ascii_of_string s).

(** [utf8 bs s]: [bs] is the concatenation of the encodings of the
    code points of [s]. *)
Inductive utf8 : bytes -> str -> Prop :=
| utf8_nil : utf8 [] []
| utf8_cons c enc rest s :
    utf8_encode_char c = Some enc ->
    utf8 rest s ->
    utf8 (enc ++ rest) (c :: s).

(** The traffic of a run of the server over the lines [ls] it reads: a
    line that decodes is answered, a line that does not is left
    unanswered. *)
Definition served (l : bytes) : list Serial.io_event :=
  match utf8_decode l with
  | Some _ => [Serial.ReadLine l; Serial.Wrote (tx_to_rx l)]
  | None => [Serial.ReadLine l]
  end.

(** The diagnostics of a run of the server over the lines [ls]. *)
Definition diagnosed (l : bytes) : list printed :=
  match utf8_decode l with
  | Some _ => []
  | None => [Failed_to_decode_payload l]
  end.

(** A line on which nothing is pending: no buffered byte, no delivery. *)
Definition silent_port : Serial.Port :=
  {| Serial.name := ""; Serial.baudrate := 0; Serial.timeout := 0;
     Serial.rs485_mode := None;
     Serial.in_buffer := []; Serial.on_open := [];
     Serial.incoming := []; Serial.log := [] |}.

(** A line with [buf] buffered and [inc] still to be delivered. *)
Definition line_with (buf : bytes) (inc : list bytes) : World :=
  {| port := Serial.set_io silent_port buf inc [];
     stdout := []; stderr := [] |}.

Definition an_interface : Interface := {| device := "/dev/ttyUSB0" |}.

(** A line on which [stale] and a newline wait unread when the port is
    opened, the peer answering run 0 as awaited afterwards. *)
Definition stale_line : World := line_with (line "stale") [line "RX_run_0"].

(** A line that is not opened yet: [buffered] was received before the
    opening, [arriving] arrives while the port is being opened, after
    the driver has reset its input buffer, and [inc] is delivered
    later. *)
Definition line_before_open (buffered arriving : bytes) (inc : list bytes)
  : World :=
  {| port :=
       {| Serial.name := ""; Serial.baudrate := 0; Serial.timeout := 0;
          Serial.rs485_mode := None;
          Serial.in_buffer := buffered; Serial.on_open := arriving;
          Serial.incoming := inc; Serial.log := [] |};
     stdout := []; stderr := [] |}.

(** A line on which [old] and a newline were received before the
    opening and [stale] and a newline arrive while the port is being
    opened, the peer answering run 0 as awaited afterwards. *)
Definition racing_line : World :=
  line_before_open (line "old") (line "stale") [line "RX_run_0"].

(** A character of a decimal numeral: a digit or the minus sign. *)
Definition is_decimal_char (a : ascii) : bool :=
  let n := N_of_ascii a in
  (((48 <=? n) && (n <=? 57)) || (n =? 45))%N.

(** A line that [bytes.decode()] accepts. *)
Definition decodes (l : bytes) : bool :=
  match utf8_decode l with
  | Some _ => true
  | None => false
  end.

(** A line on which nothing is buffered and nothing will arrive. *)
Definition silent (p : Serial.Port) : Prop :=
  Serial.in_buffer p = [] /\ Serial.incoming p = [].

(* ===================================================================== *)
(** * The codec *)
(* ===================================================================== *)

Section Codec.

Lemma ord_byte_range (b : byte) : 0 <= ord_byte b < 256.
Proof.
  unfold ord_byte. pose proof (Byte.to_N_bounded b). lia.
Qed.

Lemma byte_of_ord (b : byte) : byte_of (ord_byte b) = b.
Proof.
  unfold byte_of, ord_byte. rewrite N2Z.id, Byte.of_to_N. reflexivity.
Qed.

Lemma ord_byte_of (z : Z) : 0 <= z < 256 -> ord_byte (byte_of z) = z.
Proof.
  intros Hz. unfold byte_of, ord_byte.
  destruct (Byte.of_N (Z.to_N z)) as [b|] eqn:E.
  - apply Byte.to_of_N in E. rewrite E. lia.
  - apply Byte.of_N_None_iff in E. lia.
Qed.

Lemma ord_byte_inj (a c : byte) : ord_byte a = ord_byte c -> a = c.
Proof.
  intros H. rewrite <- (byte_of_ord a), <- (byte_of_ord c), H. reflexivity.
Qed.

Lemma byte_eqb_ord (a c : byte) : Byte.eqb a c = (ord_byte a =? ord_byte c).
Proof.
  destruct (Byte.eqb a c) eqn:E.
  - apply Byte.byte_dec_bl in E. subst. symmetry. apply Z.eqb_refl.
  - symmetry. apply Z.eqb_neq. intros H. apply ord_byte_inj in H.
    subst. rewrite (Byte.byte_dec_lb eq_refl) in E. discriminate.
Qed.

Lemma bytes_eqb_eq (x y : bytes) : bytes_eqb x y = true <-> x = y.
Proof.
  revert y. induction x as [|a x IH]; intros [|c y]; simpl;
    try (split; [discriminate | discriminate]); try tauto.
  rewrite andb_true_iff, IH. split.
  - intros [H1 H2]. apply Byte.byte_dec_bl in H1. congruence.
  - intros H. inversion H. subst. split; [apply Byte.byte_dec_lb|]; reflexivity.
Qed.

Lemma bytes_eqb_refl (x : bytes) : bytes_eqb x x = true.
Proof. apply bytes_eqb_eq. reflexivity. Qed.

Lemma bytes_eqb_neq (x y : bytes) : bytes_eqb x y = false <-> x <> y.
Proof.
  split.
  - intros H E. apply bytes_eqb_eq in E. congruence.
  - intros H. destruct (bytes_eqb x y) eqn:E; [|reflexivity].
    apply bytes_eqb_eq in E. contradiction.
Qed.

End Codec.

Section CodecRoundTrip.

Ltac zif :=
  match goal with
  | |- context [if ?c then _ else _] => destruct c eqn:?; try lia
  end.

Lemma encode_char_1 (c : Z) :
  0 <= c < 128 -> utf8_encode_char c = Some [byte_of c].
Proof.
  intros H. unfold utf8_encode_char. zif. reflexivity.
Qed.

Lemma encode_char_2 (z0 z1 : Z) :
  194 <= z0 <= 223 -> 128 <= z1 <= 191 ->
  utf8_encode_char ((z0 - 192) * 64 + (z1 - 128)) = Some [byte_of z0; byte_of z1].
Proof.
  intros H0 H1. unfold utf8_encode_char.
  set (c := (z0 - 192) * 64 + (z1 - 128)).
  assert (Hc : 128 <= c < 2048) by (unfold c; lia).
  do 2 zif.
  replace (192 + c / 64) with z0 by (unfold c; Z.to_euclidean_division_equations; lia).
  replace (128 + c mod 64) with z1 by (unfold c; Z.to_euclidean_division_equations; lia).
  reflexivity.
Qed.

Lemma encode_char_3 (z0 z1 z2 : Z) :
  224 <= z0 <= 239 -> 128 <= z1 <= 191 -> 128 <= z2 <= 191 ->
  (z0 = 224 -> 160 <= z1) -> (z0 = 237 -> z1 <= 159) ->
  utf8_encode_char ((z0 - 224) * 4096 + (z1 - 128) * 64 + (z2 - 128))
  = Some [byte_of z0; byte_of z1; byte_of z2].
Proof.
  intros H0 H1 H2 Hlow Hsur. unfold utf8_encode_char.
  set (c := (z0 - 224) * 4096 + (z1 - 128) * 64 + (z2 - 128)).
  assert (Hc : 2048 <= c < 65536) by (unfold c; lia).
  assert (Hs : ~ (55296 <= c <= 57343)) by (unfold c; lia).
  do 4 zif.
  replace (224 + c / 4096) with z0 by (unfold c; Z.to_euclidean_division_equations; lia).
  replace (128 + (c / 64) mod 64) with z1 by (unfold c; Z.to_euclidean_division_equations; lia).
  replace (128 + c mod 64) with z2 by (unfold c; Z.to_euclidean_division_equations; lia).
  reflexivity.
Qed.

Lemma encode_char_4 (z0 z1 z2 z3 : Z) :
  240 <= z0 <= 244 ->
  128 <= z1 <= 191 -> 128 <= z2 <= 191 -> 128 <= z3 <= 191 ->
  (z0 = 240 -> 144 <= z1) -> (z0 = 244 -> z1 <= 143) ->
  utf8_encode_char
    ((z0 - 240) * 262144 + (z1 - 128) * 4096 + (z2 - 128) * 64 + (z3 - 128))
  = Some [byte_of z0; byte_of z1; byte_of z2; byte_of z3].
Proof.
  intros H0 H1 H2 H3 Hlow Hhigh. unfold utf8_encode_char.
  set (c := (z0 - 240) * 262144 + (z1 - 128) * 4096 + (z2 - 128) * 64 + (z3 - 128)).
  assert (Hc : 65536 <= c <= 1114111) by (unfold c; lia).
  do 4 zif.
  replace (240 + c / 262144) with z0 by (unfold c; Z.to_euclidean_division_equations; lia).
  replace (128 + (c / 4096) mod 64) with z1 by (unfold c; Z.to_euclidean_division_equations; lia).
  replace (128 + (c / 64) mod 64) with z2 by (unfold c; Z.to_euclidean_division_equations; lia).
  replace (128 + c mod 64) with z3 by (unfold c; Z.to_euclidean_division_equations; lia).
  reflexivity.
Qed.

Lemma option_map_Some {A B} (f : A -> B) (o : option A) (y : B) :
  option_map f o = Some y -> exists x, o = Some x /\ y = f x.
Proof.
  destruct o as [x|]; simpl; intros H; [|discriminate].
  exists x. split; congruence.
Qed.

(** Whatever [utf8_decode] accepts is a concatenation of encodings. *)
Lemma utf8_decode_sound (n : nat) :
  forall bs s, (List.length bs <= n)%nat -> utf8_decode bs = Some s -> utf8 bs s.
Proof.
  induction n as [|n IH]; intros bs s Hlen H.
  - destruct bs; simpl in Hlen; [|lia].
    simpl in H. inversion H. constructor.
  - destruct bs as [|b0 r0]; [simpl in H; inversion H; constructor|].
    pose proof (ord_byte_range b0) as R0.
    cbn [utf8_decode] in H. cbv zeta in H.
    destruct (ord_byte b0 <? 128) eqn:E1.
    { apply option_map_Some in H. destruct H as (s' & Hs' & ->).
      apply (utf8_cons _ [_]);
        [rewrite encode_char_1 by lia; rewrite ?byte_of_ord; reflexivity|].
      apply IH; [simpl in Hlen; lia | assumption]. }
    destruct ((194 <=? ord_byte b0) && (ord_byte b0 <=? 223)) eqn:E2.
    { destruct r0 as [|b1 r1]; [discriminate|].
      pose proof (ord_byte_range b1) as R1.
      unfold is_cont in H.
      destruct ((128 <=? ord_byte b1) && (ord_byte b1 <=? 191)) eqn:C1;
        [|discriminate].
      apply option_map_Some in H. destruct H as (s' & Hs' & ->).
      apply (utf8_cons _ [_; _]);
        [rewrite encode_char_2 by lia; rewrite ?byte_of_ord; reflexivity|].
      apply IH; [simpl in Hlen; lia | assumption]. }
    destruct ((224 <=? ord_byte b0) && (ord_byte b0 <=? 239)) eqn:E3.
    { destruct r0 as [|b1 [|b2 r2]]; try discriminate.
      pose proof (ord_byte_range b1) as R1.
      pose proof (ord_byte_range b2) as R2.
      unfold is_cont in H.
      match type of H with
      | (if ?c then _ else _) = _ => destruct c eqn:C; [|discriminate]
      end.
      apply option_map_Some in H. destruct H as (s' & Hs' & ->).
      apply (utf8_cons _ [_; _; _]);
        [rewrite encode_char_3 by lia; rewrite ?byte_of_ord; reflexivity|].
      apply IH; [simpl in Hlen; lia | assumption]. }
    destruct ((240 <=? ord_byte b0) && (ord_byte b0 <=? 244)) eqn:E4;
      [|discriminate].
    destruct r0 as [|b1 [|b2 [|b3 r3]]]; try discriminate.
    pose proof (ord_byte_range b1) as R1.
    pose proof (ord_byte_range b2) as R2.
    pose proof (ord_byte_range b3) as R3.
    unfold is_cont in H.
    match type of H with
    | (if ?c then _ else _) = _ => destruct c eqn:C; [|discriminate]
    end.
    apply option_map_Some in H. destruct H as (s' & Hs' & ->).
    apply (utf8_cons _ [_; _; _; _]);
        [rewrite encode_char_4 by lia; rewrite ?byte_of_ord; reflexivity|].
    apply IH; [simpl in Hlen; lia | assumption].
Qed.

End CodecRoundTrip.

(* ===================================================================== *)
(** * Replacing [TX] by [RX] *)
(* ===================================================================== *)

Section Replace.

Lemma Some_eq {A} (x y : A) : Some x = Some y -> x = y.
Proof. congruence. Qed.

Lemma encode_char_shape (c : Z) (enc : bytes) :
  utf8_encode_char c = Some enc ->
  (0 <= c < 128 /\ enc = [byte_of c])
  \/ (128 <= c /\ exists b0 more,
        enc = b0 :: more /\ Forall (fun b => 128 <= ord_byte b) enc).
Proof.
  unfold utf8_encode_char. intros H.
  repeat match type of H with
  | (if ?g then _ else _) = _ => destruct g eqn:?
  end; try discriminate; apply Some_eq in H; subst enc.
  - left. split; [lia | reflexivity].
  - right. split; [lia|]. eexists _, _. split; [reflexivity|].
    repeat (apply Forall_cons;
      [rewrite ord_byte_of; Z.to_euclidean_division_equations; lia|]).
    apply Forall_nil.
  - right. split; [lia|]. eexists _, _. split; [reflexivity|].
    repeat (apply Forall_cons;
      [rewrite ord_byte_of; Z.to_euclidean_division_equations; lia|]).
    apply Forall_nil.
  - right. split; [lia|]. eexists _, _. split; [reflexivity|].
    repeat (apply Forall_cons;
      [rewrite ord_byte_of; Z.to_euclidean_division_equations; lia|]).
    apply Forall_nil.
Qed.

(** [str.replace("TX", "RX")] is the position-wise substitution. *)
Lemma replace_from_TX (s : str) :
  replace_from [84; 88] [82; 88] O s = TX_to_RX s
  /\ forall c, replace_from [84; 88] [82; 88] O (c :: s) = TX_to_RX (c :: s).
Proof.
  induction s as [|a s [IH1 IH2]].
  - split; [reflexivity|]. intros c.
    cbn [replace_from starts_with TX_to_RX TX_here].
    rewrite andb_false_r. reflexivity.
  - split; [apply IH2|]. intros c.
    change (replace_from [84; 88] [82; 88] O (c :: a :: s))
      with (if (84 =? c) && ((88 =? a) && true)
            then 82 :: 88 :: replace_from [84; 88] [82; 88] 1 (a :: s)
            else c :: replace_from [84; 88] [82; 88] O (a :: s)).
    change (TX_to_RX (c :: a :: s))
      with ((if (c =? 84) && (a =? 88) then 82 else c) :: TX_to_RX (a :: s)).
    destruct ((84 =? c) && ((88 =? a) && true)) eqn:E.
    + assert (c = 84 /\ a = 88) as [-> ->] by lia.
      change (replace_from [84; 88] [82; 88] 1 (88 :: s))
        with (replace_from [84; 88] [82; 88] O s).
      rewrite IH1. destruct s; reflexivity.
    + rewrite IH2.
      replace ((c =? 84) && (a =? 88)) with false by lia. reflexivity.
Qed.

Lemma str_replace_TX (s : str) :
  str_replace s (s_lit "TX") (s_lit "RX") = TX_to_RX s.
Proof. apply (replace_from_TX s). Qed.

Lemma utf8_encode_app (x y : str) (bx by_ : bytes) :
  utf8_encode x = Some bx -> utf8_encode y = Some by_ ->
  utf8_encode (x ++ y) = Some (bx ++ by_).
Proof.
  revert bx. induction x as [|c x IH]; intros bx Hx Hy; simpl in *.
  - inversion Hx. assumption.
  - destruct (utf8_encode_char c) as [e|]; [|discriminate].
    destruct (utf8_encode x) as [r|]; [|discriminate].
    inversion Hx. rewrite (IH r eq_refl Hy), app_assoc. reflexivity.
Qed.

(** Encoding undoes decoding. *)
Lemma utf8_encode_of_utf8 (bs : bytes) (s : str) :
  utf8 bs s -> utf8_encode s = Some bs.
Proof.
  induction 1 as [|c enc rest s Hc _ IH]; [reflexivity|].
  simpl. rewrite Hc, IH. reflexivity.
Qed.

Lemma tx_here_cons (c : byte) (r : bytes) :
  tx_here (c :: r) = Byte.eqb c "T"%byte && head_is_X r.
Proof. destruct r; simpl; [rewrite andb_false_r|]; reflexivity. Qed.

Lemma TX_here_cons (c : Z) (r : str) :
  TX_here (c :: r) = (c =? 84) && head_is_88 r.
Proof. destruct r; simpl; [rewrite andb_false_r|]; reflexivity. Qed.

Lemma byte_eqb_of (c : Z) (x : byte) :
  0 <= c < 256 -> Byte.eqb (byte_of c) x = (c =? ord_byte x).
Proof. intros H. rewrite byte_eqb_ord, ord_byte_of by assumption. reflexivity. Qed.

Lemma utf8_head_X (bs : bytes) (s : str) :
  utf8 bs s -> head_is_X bs = head_is_88 s.
Proof.
  destruct 1 as [|c enc rest s Hc _]; [reflexivity|].
  apply encode_char_shape in Hc.
  destruct Hc as [[Hc ->] | [Hc (b0 & more & -> & Hall)]]; simpl.
  - rewrite byte_eqb_of by lia. reflexivity.
  - inversion Hall as [|? ? Hb0 _]; subst.
    rewrite byte_eqb_ord. change (ord_byte "X") with 88. lia.
Qed.

Lemma tx_to_rx_high (enc rest : bytes) :
  Forall (fun b => 128 <= ord_byte b) enc ->
  tx_to_rx (enc ++ rest) = enc ++ tx_to_rx rest.
Proof.
  induction 1 as [|b enc Hb _ IH]; [reflexivity|].
  change ((b :: enc) ++ rest) with (b :: (enc ++ rest)).
  cbn [tx_to_rx]. rewrite tx_here_cons, IH.
  replace (Byte.eqb b "T") with false; [reflexivity|].
  rewrite byte_eqb_ord. change (ord_byte "T") with 84. lia.
Qed.

(** On well-formed UTF-8 the substitution on the text and the
    substitution on its bytes agree. *)
Lemma utf8_TX_to_RX (bs : bytes) (s : str) :
  utf8 bs s -> utf8 (tx_to_rx bs) (TX_to_RX s).
Proof.
  induction 1 as [|c enc rest s Hc Hrest IH]; [constructor|].
  cbn [TX_to_RX]. rewrite TX_here_cons.
  pose proof (utf8_head_X _ _ Hrest) as HX.
  destruct (encode_char_shape _ _ Hc)
    as [[Hr ->] | [Hr (b0 & more & -> & Hall)]].
  - change ([byte_of c] ++ rest) with (byte_of c :: rest).
    cbn [tx_to_rx]. rewrite tx_here_cons, byte_eqb_of by lia.
    change (ord_byte "T") with 84. rewrite HX.
    destruct ((c =? 84) && head_is_88 s).
    + apply (utf8_cons 82 ["R"%byte]); [reflexivity | assumption].
    + apply (utf8_cons c [byte_of c]); [apply encode_char_1; lia | assumption].
  - rewrite tx_to_rx_high by assumption.
    replace (c =? 84) with false by lia. simpl andb. cbv iota.
    apply utf8_cons; assumption.
Qed.

Lemma tx_to_rx_length (l : bytes) : List.length (tx_to_rx l) = List.length l.
Proof. induction l as [|c r IH]; [reflexivity|]. cbn [tx_to_rx]. simpl. congruence. Qed.

(** Position by position: [R] where [TX] occurs, the byte of the line
    elsewhere. *)
Lemma tx_to_rx_nth (l : bytes) (i : nat) :
  nth_error (tx_to_rx l) i =
  if tx_here (skipn i l) then Some "R"%byte else nth_error l i.
Proof.
  revert i. induction l as [|c r IH]; intros [|i]; try reflexivity.
  - cbn [tx_to_rx]. cbn [nth_error skipn]. destruct (tx_here (c :: r)); reflexivity.
  - cbn [tx_to_rx]. cbn [nth_error skipn]. apply IH.
Qed.

Lemma tx_to_rx_no_occurrence (l : bytes) :
  (forall i, tx_here (skipn i l) = false) -> tx_to_rx l = l.
Proof.
  induction l as [|c r IH]; intros H; [reflexivity|].
  cbn [tx_to_rx]. rewrite (H O : tx_here (c :: r) = false).
  f_equal. apply IH. intros i. apply (H (S i)).
Qed.

Lemma tx_to_rx_terminated (l : bytes) : terminated (tx_to_rx l) = terminated l.
Proof.
  induction l as [|c [|x r] IH]; try reflexivity.
  change (tx_to_rx (c :: x :: r))
    with ((if tx_here (c :: x :: r) then "R"%byte else c) :: tx_to_rx (x :: r)).
  change (terminated (c :: x :: r)) with (terminated (x :: r)).
  rewrite <- IH. cbn [tx_to_rx]. reflexivity.
Qed.

End Replace.

(* ===================================================================== *)
(** * The payloads of the client *)
(* ===================================================================== *)

Section Payloads.

Lemma list_ascii_of_string_app (x y : string) :
  list_ascii_of_string (x ++ y) = list_ascii_of_string x ++ list_ascii_of_string y.
Proof. induction x as [|a x IH]; simpl; [|rewrite IH]; reflexivity. Qed.

Lemma s_lit_app (x y : string) : s_lit (x ++ y) = s_lit x ++ s_lit y.
Proof. unfold s_lit. rewrite list_ascii_of_string_app. apply map_app. Qed.

Lemma b_lit_app (x y : string) : b_lit (x ++ y) = b_lit x ++ b_lit y.
Proof.
  unfold b_lit, list_byte_of_string.
  rewrite list_ascii_of_string_app. apply map_app.
Qed.

Lemma ascii_only_app (x y : string) :
  ascii_only x -> ascii_only y -> ascii_only (x ++ y).
Proof.
  unfold ascii_only. rewrite list_ascii_of_string_app.
  intros; apply Forall_app; split; assumption.
Qed.

Lemma byte_of_N_of_ascii (a : ascii) :
  byte_of (Z.of_N (N_of_ascii a)) = byte_of_ascii a.
Proof.
  unfold byte_of. rewrite N2Z.id, <- byte_of_ascii_via_N. reflexivity.
Qed.

(** Encoding ASCII text yields its characters as bytes. *)
Lemma utf8_encode_ascii (s : string) :
  ascii_only s -> utf8_encode (s_lit s) = Some (b_lit s).
Proof.
  unfold ascii_only, s_lit, b_lit, list_byte_of_string.
  induction 1 as [|a l Ha _ IH]; [reflexivity|].
  cbn [map utf8_encode]. rewrite encode_char_1 by lia.
  rewrite IH, byte_of_N_of_ascii. reflexivity.
Qed.

Lemma ascii_only_uint (d : Decimal.uint) :
  ascii_only (NilEmpty.string_of_uint d).
Proof.
  unfold ascii_only.
  induction d; simpl; constructor; (assumption || (vm_compute; reflexivity)).
Qed.

Lemma ascii_only_uint0 (d : Decimal.uint) :
  ascii_only (NilZero.string_of_uint d).
Proof.
  destruct d; try apply (ascii_only_uint (_ d)).
  unfold ascii_only. simpl. repeat constructor.
Qed.

Lemma ascii_only_decimal (z : Z) : ascii_only (decimal z).
Proof.
  unfold decimal, NilZero.string_of_int.
  destruct (Z.to_int z) as [d | d]; [apply ascii_only_uint0|].
  unfold ascii_only. cbn [list_ascii_of_string].
  constructor; [vm_compute; reflexivity | apply ascii_only_uint0].
Qed.

Lemma ascii_only_closed (s : string) :
  forallb (fun a => (N_of_ascii a <? 128)%N) (list_ascii_of_string s) = true ->
  ascii_only s.
Proof.
  unfold ascii_only. rewrite forallb_forall, Forall_forall.
  intros H a Ha. apply N.ltb_lt, H, Ha.
Qed.

Lemma encode_payload (k : Z) :
  utf8_encode (s_lit "TX_run_" ++ format_int k ++ s_lit LF) = Some (payload_bytes k).
Proof.
  unfold format_int, payload_bytes. rewrite <- !s_lit_app.
  apply utf8_encode_ascii.
  repeat apply ascii_only_app;
    [apply ascii_only_closed; reflexivity
    | apply ascii_only_decimal
    | apply ascii_only_closed; reflexivity].
Qed.

Lemma encode_expected (k : Z) :
  utf8_encode (s_lit "RX_run_" ++ format_int k ++ s_lit LF) = Some (expected_bytes k).
Proof.
  unfold format_int, expected_bytes. rewrite <- !s_lit_app.
  apply utf8_encode_ascii.
  repeat apply ascii_only_app;
    [apply ascii_only_closed; reflexivity
    | apply ascii_only_decimal
    | apply ascii_only_closed; reflexivity].
Qed.

Lemma terminated_app_newline (x : bytes) :
  terminated (x ++ [Serial.newline]) = true.
Proof.
  induction x as [|a [|c x] IH]; try reflexivity.
  exact IH.
Qed.

Lemma payload_terminated (k : Z) : terminated (payload_bytes k) = true.
Proof.
  unfold payload_bytes. rewrite !b_lit_app. rewrite app_assoc.
  apply terminated_app_newline.
Qed.

Lemma expected_terminated (k : Z) : terminated (expected_bytes k) = true.
Proof.
  unfold expected_bytes. rewrite !b_lit_app. rewrite app_assoc.
  apply terminated_app_newline.
Qed.

End Payloads.

(* ===================================================================== *)
(** * The client *)
(* ===================================================================== *)

Section Client.

Lemma log_write (d : bytes) (p : Serial.Port) :
  Serial.log (Serial.write d p) = Serial.log p ++ [Serial.Wrote d].
Proof. reflexivity. Qed.

Lemma log_readline (p p' : Serial.Port) (l : bytes) :
  Serial.readline p = (l, p') ->
  Serial.log p' = Serial.log p ++ [Serial.ReadLine l].
Proof.
  unfold Serial.readline.
  destruct (Serial.readline_from _ _) as [l0 [buf inc]].
  intros H. inversion H. reflexivity.
Qed.

(** One run of the loop body, statement by statement. *)
Lemma echo_client_run_eq (k : Z) (w : World) :
  echo_client_run k w =
  let '(r, p) := Serial.readline (Serial.write (payload_bytes k) (port w)) in
  ({| port := p; stdout := stdout w; stderr := stderr w |},
   if bytes_eqb r (expected_bytes k) then inr tt
   else inl (InvalidSerial5Reponse r (expected_bytes k))).
Proof.
  unfold echo_client_run, bind, encode.
  rewrite encode_expected, encode_payload.
  unfold ret, port_write, with_port, port_readline, raise.
  cbn [port stdout stderr].
  destruct (Serial.readline _) as [r p].
  destruct (bytes_eqb r (expected_bytes k)); reflexivity.
Qed.

Lemma exchanges_app (first : Z) (rs rs' : list bytes) :
  exchanges first (rs ++ rs') =
  exchanges first rs ++ exchanges (first + Z.of_nat (List.length rs)) rs'.
Proof.
  revert first. induction rs as [|r rs IH]; intros first.
  - simpl. rewrite Z.add_0_r. reflexivity.
  - cbn [exchanges app List.length]. rewrite IH.
    replace (first + 1 + Z.of_nat (List.length rs))
      with (first + Z.of_nat (S (List.length rs))) by lia.
    reflexivity.
Qed.

Lemma writes_of_exchanges (first : Z) (rs : list bytes) :
  Serial.writes_of (exchanges first rs) =
  map (fun i => payload_bytes (first + Z.of_nat i)) (seq 0 (List.length rs)).
Proof.
  revert first. induction rs as [|r rs IH]; intros first; [reflexivity|].
  cbn [exchanges Serial.writes_of List.length seq map].
  rewrite Z.add_0_r, IH, <- seq_shift, map_map. f_equal.
  apply map_ext. intros i. f_equal. lia.
Qed.

Lemma lines_of_exchanges (first : Z) (rs : list bytes) :
  Serial.lines_of (exchanges first rs) = rs.
Proof.
  revert first. induction rs as [|r rs IH]; intros first; [reflexivity|].
  cbn [exchanges Serial.lines_of]. rewrite IH. reflexivity.
Qed.

Lemma for_each_cons {A} (x : A) (r : list A) (body : A -> M unit) (w : World) :
  for_each (x :: r) body w =
  match body x w with
  | (w', inl e) => (w', inl e)
  | (w', inr _) => for_each r body w'
  end.
Proof. reflexivity. Qed.

(** The loop over the runs [a], [a+1], ..., [a+n-1]. *)
Lemma for_each_runs (n : nat) :
  forall (a : nat) (w : World),
  exists rs,
    let w' := fst (for_each (map Z.of_nat (seq a n)) echo_client_run w) in
    let res := snd (for_each (map Z.of_nat (seq a n)) echo_client_run w) in
    stdout w' = stdout w /\ stderr w' = stderr w /\
    Serial.log (port w') = Serial.log (port w) ++ exchanges (Z.of_nat a) rs /\
    ((res = inr tt /\ List.length rs = n /\ all_match (Z.of_nat a) rs)
     \/ (exists rs0 r,
           rs = rs0 ++ [r] /\ (List.length rs0 < n)%nat /\
           all_match (Z.of_nat a) rs0 /\
           r <> expected_bytes (Z.of_nat a + Z.of_nat (List.length rs0)) /\
           res = inl (InvalidSerial5Reponse r
                        (expected_bytes (Z.of_nat a + Z.of_nat (List.length rs0)))))).
Proof.
  induction n as [|n IH]; intros a w.
  - exists []. cbn [seq map for_each]. unfold ret. cbn [fst snd exchanges].
    rewrite app_nil_r. repeat split. left. repeat split.
    intros [|i] r H; discriminate.
  - cbn [seq map]. rewrite for_each_cons, echo_client_run_eq.
    destruct (Serial.readline _) as [r p] eqn:Hr.
    apply log_readline in Hr. rewrite log_write in Hr.
    destruct (bytes_eqb r (expected_bytes (Z.of_nat a))) eqn:Hm;
      cbv beta iota zeta.
    + apply bytes_eqb_eq in Hm.
      destruct (IH (S a) {| port := p; stdout := stdout w; stderr := stderr w |})
        as (rs & Hout & Herr & Hlog & Hres).
      exists (r :: rs). cbn zeta in *. cbn [port stdout stderr] in *.
      split; [assumption|]. split; [assumption|]. split.
      { rewrite Hlog, Hr, <- !app_assoc. cbn [exchanges app].
        replace (Z.of_nat a + 1) with (Z.of_nat (S a)) by lia. reflexivity. }
      destruct Hres as [(Hok & Hlen & Hall) | (rs0 & r' & -> & Hlen & Hall & Hne & Herrv)].
      * left. split; [assumption|]. split; [simpl; congruence|].
        intros [|i] x Hx; cbn [nth_error] in Hx.
        -- apply Some_eq in Hx. subst x. rewrite Hm. f_equal. lia.
        -- rewrite (Hall i x Hx). f_equal. lia.
      * right. exists (r :: rs0), r'. split; [reflexivity|].
        split; [simpl; lia|]. split.
        { intros [|i] x Hx; cbn [nth_error] in Hx.
          - apply Some_eq in Hx. subst x. rewrite Hm. f_equal. lia.
          - rewrite (Hall i x Hx). f_equal. lia. }
        cbn [List.length].
        replace (Z.of_nat a + Z.of_nat (S (List.length rs0)))
          with (Z.of_nat (S a) + Z.of_nat (List.length rs0)) by lia.
        split; assumption.
    + apply bytes_eqb_neq in Hm.
      exists [r]. cbn [fst snd port stdout stderr].
      split; [reflexivity|]. split; [reflexivity|]. split.
      { rewrite Hr, <- app_assoc. reflexivity. }
      right. exists [], r. cbn [List.length app]. rewrite Z.add_0_r.
      split; [reflexivity|]. split; [lia|]. split.
      { intros [|i] x Hx; discriminate. }
      split; [assumption | reflexivity].
Qed.

(** The argument of the call, the default filled in. *)
Lemma echo_client_unfold (self : Interface) (arg : option Z) (w : World) :
  echo_client self arg w =
  for_each (map Z.of_nat (seq 0 (Z.to_nat (num_runs_of arg + 1)))) echo_client_run w.
Proof. destruct arg; reflexivity. Qed.

(** What a call of [echo_client] does: the exchanges it performs, and
    how it ends. *)
Lemma echo_client_trace (self : Interface) (arg : option Z) (w : World) :
  exists rs,
    stdout (fst (echo_client self arg w)) = stdout w /\
    stderr (fst (echo_client self arg w)) = stderr w /\
    Serial.log (port (fst (echo_client self arg w)))
      = Serial.log (port w) ++ exchanges 0 rs /\
    (List.length rs <= Z.to_nat (num_runs_of arg + 1))%nat /\
    (forall k r,
        nth_error rs k = Some r -> r <> expected_bytes (Z.of_nat k) ->
        snd (echo_client self arg w)
          = inl (InvalidSerial5Reponse r (expected_bytes (Z.of_nat k)))
        /\ List.length rs = S k) /\
    (all_match 0 rs ->
        List.length rs = Z.to_nat (num_runs_of arg + 1)
        /\ snd (echo_client self arg w) = inr tt) /\
    (snd (echo_client self arg w) = inr tt ->
        List.length rs = Z.to_nat (num_runs_of arg + 1) /\ all_match 0 rs).
Proof.
  rewrite echo_client_unfold.
  destruct (for_each_runs (Z.to_nat (num_runs_of arg + 1)) 0 w)
    as (rs & Hout & Herr & Hlog & Hres).
  cbv zeta in *. change (Z.of_nat 0) with 0 in *.
  exists rs. split; [assumption|]. split; [assumption|]. split; [assumption|].
  destruct Hres as [(Hok & Hlen & Hall)
                   | (rs0 & r' & -> & Hlen & Hall & Hne & Hres)].
  - split; [lia|]. split; [|split].
    + intros k r Hk Hr. exfalso. apply Hr. apply (Hall k r Hk).
    + intros _. split; assumption.
    + intros _. split; assumption.
  - rewrite length_app. cbn [List.length].
    split; [lia|].
    assert (Hlast : nth_error (rs0 ++ [r']) (List.length rs0) = Some r').
    { rewrite nth_error_app2 by lia. rewrite Nat.sub_diag. reflexivity. }
    split; [|split].
    + intros k r Hk Hr.
      destruct (Nat.lt_trichotomy k (List.length rs0)) as [Hlt | [-> | Hgt]].
      * exfalso. apply Hr. apply Hall. rewrite nth_error_app1 in Hk; assumption.
      * rewrite Hlast in Hk. apply Some_eq in Hk. subst r'.
        split; [assumption | lia].
      * exfalso. assert (nth_error (rs0 ++ [r']) k = None) as E.
        { apply nth_error_None. rewrite length_app. simpl. lia. }
        congruence.
    + intros Hm. exfalso. apply Hne. apply (Hm _ _ Hlast).
    + intros E. rewrite Hres in E. discriminate.
Qed.

End Client.

(* ===================================================================== *)
(** * The server *)
(* ===================================================================== *)

Section Server.

(** What the server answers to a line that decodes. *)
Lemma response_bytes (line : bytes) (text : str) :
  utf8_decode line = Some text ->
  utf8_encode (str_replace text (s_lit "TX") (s_lit "RX")) = Some (tx_to_rx line).
Proof.
  intros H. rewrite str_replace_TX.
  apply utf8_encode_of_utf8, utf8_TX_to_RX.
  apply (utf8_decode_sound (List.length line)); [lia | assumption].
Qed.

(** One pass of the loop, statement by statement. *)
Lemma echo_server_pass_eq (self : Interface) (w : World) :
  echo_server_pass self w =
  let '(l, p) := Serial.readline (port w) in
  match utf8_decode l with
  | Some _ =>
    ({| port := Serial.write (tx_to_rx l) p;
        stdout := stdout w; stderr := stderr w |}, inr tt)
  | None =>
    ({| port := p; stdout := stdout w;
        stderr := stderr w ++ [Failed_to_decode_payload l] |}, inr tt)
  end.
Proof.
  unfold echo_server_pass, bind at 1, port_readline.
  destruct (Serial.readline (port w)) as [l p].
  unfold try_except, bind, decode.
  destruct (utf8_decode l) as [text|] eqn:Hd.
  - unfold ret, encode. rewrite (response_bytes _ _ Hd). reflexivity.
  - reflexivity.
Qed.

Lemma echo_server_S (n : nat) (self : Interface) (w : World) :
  echo_server (S n) self w =
  match echo_server_pass self w with
  | (w', inl e) => (w', inl e)
  | (w', inr _) => echo_server n self w'
  end.
Proof. reflexivity. Qed.

(** A run of [passes] passes: the lines read, what was answered, what
    was reported, and the loop still running. *)
Lemma echo_server_trace (passes : nat) (self : Interface) :
  forall w : World,
  exists ls,
    List.length ls = passes /\
    snd (echo_server passes self w) = inr Running /\
    stdout (fst (echo_server passes self w)) = stdout w /\
    stderr (fst (echo_server passes self w)) = stderr w ++ flat_map diagnosed ls /\
    Serial.log (port (fst (echo_server passes self w)))
      = Serial.log (port w) ++ flat_map served ls.
Proof.
  induction passes as [|n IH]; intros w.
  - exists []. cbn [flat_map]. rewrite !app_nil_r. repeat split.
  - rewrite echo_server_S, echo_server_pass_eq.
    destruct (Serial.readline (port w)) as [l p] eqn:Hr.
    apply log_readline in Hr.
    destruct (utf8_decode l) as [text|] eqn:Hd.
    + destruct (IH {| port := Serial.write (tx_to_rx l) p;
                      stdout := stdout w; stderr := stderr w |})
        as (ls & Hlen & Hrun & Hout & Herr & Hlog).
      cbn [port stdout stderr] in *.
      exists (l :: ls). cbn [flat_map List.length].
      unfold served at 1, diagnosed at 1. rewrite Hd.
      split; [congruence|]. split; [assumption|]. split; [assumption|].
      split; [assumption|].
      rewrite Hlog, log_write, Hr, <- !app_assoc. reflexivity.
    + destruct (IH {| port := p; stdout := stdout w;
                      stderr := stderr w ++ [Failed_to_decode_payload l] |})
        as (ls & Hlen & Hrun & Hout & Herr & Hlog).
      cbn [port stdout stderr] in *.
      exists (l :: ls). cbn [flat_map List.length].
      unfold served at 1, diagnosed at 1. rewrite Hd.
      split; [congruence|]. split; [assumption|]. split; [assumption|].
      split; [rewrite Herr, <- app_assoc; reflexivity|].
      rewrite Hlog, Hr, <- !app_assoc. reflexivity.
Qed.

Lemma writes_of_app (x y : list Serial.io_event) :
  Serial.writes_of (x ++ y) = Serial.writes_of x ++ Serial.writes_of y.
Proof.
  induction x as [|[d|l|d] x IH]; cbn [app Serial.writes_of];
    rewrite ?IH; reflexivity.
Qed.

Lemma lines_of_app (x y : list Serial.io_event) :
  Serial.lines_of (x ++ y) = Serial.lines_of x ++ Serial.lines_of y.
Proof.
  induction x as [|[d|l|d] x IH]; cbn [app Serial.lines_of];
    rewrite ?IH; reflexivity.
Qed.

Lemma lines_of_served (ls : list bytes) :
  Serial.lines_of (flat_map served ls) = ls.
Proof.
  induction ls as [|l ls IH]; [reflexivity|].
  cbn [flat_map]. rewrite lines_of_app, IH. unfold served.
  destruct (utf8_decode l); reflexivity.
Qed.

(** Every payload the server wrote answers a line it read. *)
Lemma writes_of_served (ls : list bytes) (d : bytes) :
  In d (Serial.writes_of (flat_map served ls)) ->
  exists l, In l ls /\ utf8_decode l <> None /\ d = tx_to_rx l.
Proof.
  induction ls as [|l ls IH]; [intros []|].
  cbn [flat_map]. rewrite writes_of_app, in_app_iff. intros [H | H].
  - unfold served in H. destruct (utf8_decode l) eqn:Hd; [|destruct H].
    destruct H as [<- | []]. exists l. split; [left; reflexivity|].
    split; [congruence | reflexivity].
  - destruct (IH H) as (l' & Hin & Hd & ->).
    exists l'. split; [right; assumption|]. split; [assumption | reflexivity].
Qed.

End Server.

(* ===================================================================== *)
(** * Reading a line *)
(* ===================================================================== *)

Section ReadLine.

Lemma terminated_cons (c : byte) (l : bytes) :
  l <> [] -> terminated (c :: l) = terminated l.
Proof. destruct l; [congruence | reflexivity]. Qed.

Lemma split_line_Some (buf l rest : bytes) :
  Serial.split_line buf = Some (l, rest) ->
  buf = l ++ rest /\ terminated l = true.
Proof.
  revert l. induction buf as [|c r IH]; intros l H; [discriminate|].
  cbn [Serial.split_line] in H.
  destruct (Byte.eqb c Serial.newline) eqn:E.
  - apply Some_eq in H. inversion H. subst. split; [reflexivity|].
    cbn [terminated]. assumption.
  - destruct (Serial.split_line r) as [[l' rest']|]; [|discriminate].
    apply Some_eq in H. inversion H. subst.
    destruct (IH l' eq_refl) as [-> Ht]. split; [reflexivity|].
    rewrite terminated_cons; [assumption|]. intros ->. discriminate.
Qed.

Lemma split_line_None (buf : bytes) :
  Serial.split_line buf = None -> terminated buf = false.
Proof.
  induction buf as [|c r IH]; [reflexivity|].
  cbn [Serial.split_line].
  destruct (Byte.eqb c Serial.newline) eqn:E; [discriminate|].
  destruct (Serial.split_line r) as [[l' rest']|]; [discriminate|].
  intros _. destruct r as [|x r]; [exact E|]. apply IH. reflexivity.
Qed.

(** [readline] returns a complete line, or, once nothing more arrives
    before the timeout, whatever it has: an unterminated, possibly
    empty, sequence, and the line is drained. *)
Lemma readline_from_cases (inc : list bytes) :
  forall buf l buf' inc',
  Serial.readline_from buf inc = (l, (buf', inc')) ->
  terminated l = true
  \/ (terminated l = false /\ buf' = [] /\ inc' = []
      /\ l = buf ++ List.concat inc).
Proof.
  induction inc as [|chunk more IH]; intros buf l buf' inc' H;
    cbn [Serial.readline_from] in H;
    destruct (Serial.split_line buf) as [[l0 rest]|] eqn:E.
  - inversion H. subst. left. apply (split_line_Some _ _ _ E).
  - inversion H. subst. right. split; [apply split_line_None, E|].
    cbn [List.concat]. rewrite app_nil_r. repeat split.
  - inversion H. subst. left. apply (split_line_Some _ _ _ E).
  - destruct (IH _ _ _ _ H) as [Ht | (Ht & -> & -> & ->)]; [left; assumption|].
    right. cbn [List.concat]. rewrite app_assoc. repeat split. assumption.
Qed.

Lemma readline_cases (p p' : Serial.Port) (l : bytes) :
  Serial.readline p = (l, p') ->
  terminated l = true
  \/ (terminated l = false
      /\ Serial.in_buffer p' = [] /\ Serial.incoming p' = []
      /\ l = Serial.in_buffer p ++ List.concat (Serial.incoming p)).
Proof.
  unfold Serial.readline.
  destruct (Serial.readline_from _ _) as [l0 [buf inc]] eqn:E.
  intros H. inversion H. subst. cbn [Serial.in_buffer Serial.incoming Serial.set_io].
  apply (readline_from_cases _ _ _ _ _ E).
Qed.

End ReadLine.

(* ===================================================================== *)
(** * Properties of the client *)
(* ===================================================================== *)

Section ClientProperties.

Lemma traffic_app (w w' : World) (evs : list Serial.io_event) :
  Serial.log (port w') = Serial.log (port w) ++ evs -> traffic w w' = evs.
Proof.
  intros H. unfold traffic. rewrite H, skipn_app, skipn_all, Nat.sub_diag.
  reflexivity.
Qed.

(** A call of [echo_client], in terms of what crossed the port. *)
Lemma echo_client_traffic (self : Interface) (arg : option Z) (w : World) :
  Serial.log (port (fst (echo_client self arg w)))
    = Serial.log (port w) ++ client_traffic self arg w /\
  client_traffic self arg w = exchanges 0 (client_responses self arg w) /\
  (List.length (client_responses self arg w)
     <= Z.to_nat (num_runs_of arg + 1))%nat /\
  (forall k r,
      nth_error (client_responses self arg w) k = Some r ->
      r <> expected_bytes (Z.of_nat k) ->
      client_result self arg w
        = inl (InvalidSerial5Reponse r (expected_bytes (Z.of_nat k)))
      /\ List.length (client_responses self arg w) = S k) /\
  (all_match 0 (client_responses self arg w) ->
      List.length (client_responses self arg w) = Z.to_nat (num_runs_of arg + 1)
      /\ client_result self arg w = inr tt) /\
  (client_result self arg w = inr tt ->
      List.length (client_responses self arg w) = Z.to_nat (num_runs_of arg + 1)
      /\ all_match 0 (client_responses self arg w)).
Proof.
  destruct (echo_client_trace self arg w)
    as (rs & _ & _ & Hlog & Hlen & Hmis & Hall & Hok).
  assert (Ht : client_traffic self arg w = exchanges 0 rs)
    by (apply traffic_app, Hlog).
  assert (Hr : client_responses self arg w = rs)
    by (unfold client_responses; rewrite Ht; apply lines_of_exchanges).
  unfold client_result. rewrite Hr, Ht.
  split; [assumption|]. split; [reflexivity|]. split; [assumption|].
  split; [assumption|]. split; assumption.
Qed.

Lemma exchanges_inj (first : Z) (rs rs' : list bytes) :
  exchanges first rs = exchanges first rs' -> rs = rs'.
Proof.
  intros H. rewrite <- (lines_of_exchanges first rs), H.
  apply lines_of_exchanges.
Qed.

Lemma range_succ (n : Z) :
  0 <= n -> range (n + 1) = map Z.of_nat (seq 0 (S (Z.to_nat n))).
Proof.
  intros H. unfold range. do 2 f_equal. lia.
Qed.

Lemma nth_error_writes_of_exchanges (rs : list bytes) (k : nat) (d : bytes) :
  nth_error (Serial.writes_of (exchanges 0 rs)) k = Some d ->
  d = payload_bytes (Z.of_nat k) /\ (k < List.length rs)%nat.
Proof.
  rewrite writes_of_exchanges, nth_error_map, nth_error_seq. intros H.
  destruct (k <? List.length rs)%nat eqn:E; [|discriminate].
  apply Nat.ltb_lt in E. cbn [option_map] in H. apply Some_eq in H.
  subst d. split; [reflexivity | assumption].
Qed.

Lemma firstn_seq (m a n : nat) :
  (m <= n)%nat -> firstn m (seq a n) = seq a m.
Proof.
  revert a n. induction m as [|m IH]; intros a [|n] H; try reflexivity; [lia|].
  cbn [seq firstn]. rewrite IH by lia. reflexivity.
Qed.

Lemma client_writes (self : Interface) (arg : option Z) (w : World) :
  Serial.writes_of (client_traffic self arg w)
  = map (fun k => payload_bytes (Z.of_nat k))
        (seq 0 (List.length (client_responses self arg w))).
Proof.
  destruct (echo_client_traffic self arg w) as (_ & Ht & _).
  rewrite Ht at 1. apply (writes_of_exchanges 0).
Qed.

(** [main] in client mode, once the adapter is constructed: the port
    sees the call [echo_client()] and nothing else. *)
Lemma main_client (passes : nat) (args : Args) (w0 w : World) (self : Interface) :
  mode args = client ->
  (if rs485 args
   then RS485Interface_init (args_device args) (baud args) (response_timeout args)
   else SerialInterface_init (args_device args) (baud args) (response_timeout args))
    w0 = (w, inr self) ->
  port (fst (main passes args w0)) = port (fst (echo_client self None w)).
Proof.
  intros Hmode Hctor. unfold main. unfold bind at 1. rewrite Hctor, Hmode.
  unfold bind, try_except.
  destruct (echo_client self None w) as [w1 [e | []]]; cbn [fst].
  - destruct (is_Exception e); reflexivity.
  - reflexivity.
Qed.

(** C1.  For every [num_runs >= 0] the loop of [echo_client] runs over
    the indices 0, 1, ..., [num_runs].  The traffic of a call is a
    sequence of exchanges numbered from 0, the k-th one writing the
    bytes ["TX_run_{k}\n"] and then reading one line; the client awaits
    the bytes ["RX_run_{k}\n"]: a line that differs is reported against
    them, and when every line read is the awaited one the call performs
    exactly [num_runs + 1] exchanges and returns.  With [num_runs = 2]
    and a peer that answers as awaited the port sees [TX_run_0],
    [TX_run_1], [TX_run_2], in that order, each followed by its reply. *)
Theorem C1_echo_client_exchanges (self : Interface) (num_runs : Z) (w : World) :
  0 <= num_runs ->
  range (num_runs + 1) = map Z.of_nat (seq 0 (S (Z.to_nat num_runs))) /\
  client_traffic self (Some num_runs) w
    = exchanges 0 (client_responses self (Some num_runs) w) /\
  Serial.writes_of (client_traffic self (Some num_runs) w)
    = map (fun k => b_lit ("TX_run_" ++ decimal (Z.of_nat k) ++ LF))
          (seq 0 (List.length (client_responses self (Some num_runs) w))) /\
  Z.of_nat (List.length (client_responses self (Some num_runs) w))
    <= num_runs + 1 /\
  (all_match 0 (client_responses self (Some num_runs) w) ->
     Z.of_nat (List.length (client_responses self (Some num_runs) w))
       = num_runs + 1
     /\ client_result self (Some num_runs) w = inr tt) /\
  (forall k r,
     nth_error (client_responses self (Some num_runs) w) k = Some r ->
     r <> b_lit ("RX_run_" ++ decimal (Z.of_nat k) ++ LF) ->
     client_result self (Some num_runs) w
       = inl (InvalidSerial5Reponse r
                (b_lit ("RX_run_" ++ decimal (Z.of_nat k) ++ LF)))) /\
  Serial.log (port (fst (echo_client self (Some 2)
     (line_with [] [line "RX_run_0"; line "RX_run_1"; line "RX_run_2"]))))
  = [Serial.Wrote (line "TX_run_0"); Serial.ReadLine (line "RX_run_0");
     Serial.Wrote (line "TX_run_1"); Serial.ReadLine (line "RX_run_1");
     Serial.Wrote (line "TX_run_2"); Serial.ReadLine (line "RX_run_2")].
Proof.
  intros Hn.
  destruct (echo_client_traffic self (Some num_runs) w)
    as (_ & Ht & Hlen & Hmis & Hall & _).
  cbn [num_runs_of] in *.
  split; [apply range_succ, Hn|]. split; [assumption|].
  split; [apply client_writes|]. split; [lia|]. split.
  - intros Hm. destruct (Hall Hm) as [Hl Hr]. split; [lia | assumption].
  - split; [|vm_compute; reflexivity].
    intros k r Hk Hr. apply (Hmis k r Hk Hr).
Qed.

Lemma C1_echo_client_exchanges_witness :
  0 <= 2 /\
  Z.of_nat (List.length (client_responses an_interface (Some 2)
     (line_with [] [line "RX_run_0"; line "RX_run_1"; line "RX_run_2"])))
  = 2 + 1.
Proof.
  split; [lia|].
  apply (C1_echo_client_exchanges an_interface 2
           (line_with [] [line "RX_run_0"; line "RX_run_1"; line "RX_run_2"]));
    [lia|].
  intros [|[|[|[|k]]]] r H; vm_compute in H; try discriminate;
    apply Some_eq in H; subst r; vm_compute; reflexivity.
Defined.

(** C3.  In every exchange of [echo_client], a line read back that is
    not equal to the awaited bytes makes the call raise
    [InvalidSerial5Reponse] with that very line and those very bytes as
    its two fields, and that exchange is the last one: nothing more is
    written or read.  When every line read is the awaited one, the
    call performs its [num_runs + 1] exchanges and returns [None]. *)
Theorem C3_echo_client_mismatch (self : Interface) (arg : option Z) (w : World) :
  Serial.log (port (fst (echo_client self arg w)))
    = Serial.log (port w) ++ exchanges 0 (client_responses self arg w) /\
  (forall k r,
     nth_error (client_responses self arg w) k = Some r ->
     r <> expected_bytes (Z.of_nat k) ->
     client_result self arg w
       = inl (InvalidSerial5Reponse r (expected_bytes (Z.of_nat k)))
     /\ List.length (client_responses self arg w) = S k) /\
  (all_match 0 (client_responses self arg w) ->
     List.length (client_responses self arg w) = Z.to_nat (num_runs_of arg + 1)
     /\ client_result self arg w = inr tt).
Proof.
  destruct (echo_client_traffic self arg w) as (Hlog & Ht & _ & Hmis & Hall & _).
  rewrite <- Ht. split; [assumption|]. split; assumption.
Qed.

Lemma C3_echo_client_mismatch_witness :
  client_result an_interface (Some 2)
    (line_with [] [line "RX_run_0"; line "RX_run_9"; line "RX_run_2"])
  = inl (InvalidSerial5Reponse (line "RX_run_9") (line "RX_run_1"))
  /\ List.length (client_responses an_interface (Some 2)
       (line_with [] [line "RX_run_0"; line "RX_run_9"; line "RX_run_2"])) = 2%nat.
Proof.
  apply (proj1 (proj2 (C3_echo_client_mismatch an_interface (Some 2)
           (line_with [] [line "RX_run_0"; line "RX_run_9"; line "RX_run_2"])))
           1%nat (line "RX_run_9")).
  - vm_compute. reflexivity.
  - vm_compute. discriminate.
Defined.

(** C8.  A read that times out in exchange k returns an unterminated,
    possibly empty, sequence of bytes.  Such a sequence is not the
    awaited reply, so the call raises [InvalidSerial5Reponse] with it,
    there being no other error for a timeout; exchange k is the last
    one and its payload was written once: nothing is retried. *)
Theorem C8_timeout_is_mismatch
  (self : Interface) (arg : option Z) (w : World) (k : nat) (r : bytes) :
  nth_error (client_responses self arg w) k = Some r ->
  terminated r = false ->
  r <> expected_bytes (Z.of_nat k) /\
  client_result self arg w
    = inl (InvalidSerial5Reponse r (expected_bytes (Z.of_nat k))) /\
  List.length (client_responses self arg w) = S k /\
  Serial.writes_of (client_traffic self arg w)
    = map (fun i => payload_bytes (Z.of_nat i)) (seq 0 (S k)).
Proof.
  intros Hk Ht.
  assert (Hne : r <> expected_bytes (Z.of_nat k)).
  { intros ->. rewrite expected_terminated in Ht. discriminate. }
  destruct (echo_client_traffic self arg w) as (_ & _ & _ & Hmis & _).
  destruct (Hmis k r Hk Hne) as [Hres Hlen].
  split; [assumption|]. split; [assumption|]. split; [assumption|].
  rewrite client_writes, Hlen. reflexivity.
Qed.

Lemma C8_timeout_is_mismatch_witness :
  client_result an_interface (Some 2) (line_with [] [line "RX_run_0"; b_lit "RX_r"])
  = inl (InvalidSerial5Reponse (b_lit "RX_r") (line "RX_run_1"))
  /\ client_result an_interface (Some 2) (line_with [] [])
     = inl (InvalidSerial5Reponse [] (line "RX_run_0")).
Proof.
  split.
  - apply (C8_timeout_is_mismatch an_interface (Some 2)
             (line_with [] [line "RX_run_0"; b_lit "RX_r"]) 1%nat (b_lit "RX_r"));
      vm_compute; reflexivity.
  - apply (C8_timeout_is_mismatch an_interface (Some 2)
             (line_with [] []) 0%nat []);
      vm_compute; reflexivity.
Defined.

(** C9.  A call of [echo_client] that leaves [num_runs] out, as [main]
    makes it in client mode, is the call with [num_runs = 10]: the
    loop runs over the indices 0 to 10, and the call performs 11
    exchanges when every line read is the awaited one (fewer only when
    a mismatch ends it). *)
Theorem C9_default_num_runs
  (passes : nat) (args : Args) (w0 w : World) (self : Interface) :
  mode args = client ->
  (if rs485 args
   then RS485Interface_init (args_device args) (baud args) (response_timeout args)
   else SerialInterface_init (args_device args) (baud args) (response_timeout args))
    w0 = (w, inr self) ->
  port (fst (main passes args w0)) = port (fst (echo_client self None w)) /\
  echo_client self None w = echo_client self (Some 10) w /\
  range (num_runs_of None + 1) = [0; 1; 2; 3; 4; 5; 6; 7; 8; 9; 10] /\
  client_traffic self None w = exchanges 0 (client_responses self None w) /\
  (List.length (client_responses self None w) <= 11)%nat /\
  (all_match 0 (client_responses self None w) ->
     List.length (client_responses self None w) = 11%nat
     /\ client_result self None w = inr tt).
Proof.
  intros Hmode Hctor.
  destruct (echo_client_traffic self None w) as (_ & Ht & Hlen & _ & Hall & _).
  split; [apply (main_client passes args w0 w self Hmode Hctor)|].
  split; [reflexivity|]. split; [reflexivity|]. split; [assumption|].
  split; [exact Hlen | exact Hall].
Qed.

Lemma C9_default_num_runs_witness :
  (List.length
     (client_responses an_interface None
        (fst (SerialInterface_init "/dev/ttyUSB0" 115200 3 (line_with [] []))))
   <= 11)%nat.
Proof.
  apply (C9_default_num_runs 0
           {| args_device := "/dev/ttyUSB0"; baud := 115200; rs485 := false;
              response_timeout := 3; mode := client |}
           (line_with [] [])
           (fst (SerialInterface_init "/dev/ttyUSB0" 115200 3 (line_with [] [])))
           an_interface);
    vm_compute; reflexivity.
Defined.

(** C10.  The payloads [echo_client] writes depend on [num_runs] and on
    the index of the exchange, not on what is read back: two calls
    with the same argument, whatever their worlds, write the same
    bytes in their k-th exchange whenever both reach it, namely
    ["TX_run_{k}\n"].  What is read back decides only how far into
    the schedule of [num_runs + 1] payloads the call gets: the writes
    are the first ones of the schedule, one per line read. *)
Theorem C10_writes_independent_of_responses
  (self : Interface) (arg : option Z) (w1 w2 : World) (k : nat) (d1 d2 : bytes) :
  nth_error (Serial.writes_of (client_traffic self arg w1)) k = Some d1 ->
  nth_error (Serial.writes_of (client_traffic self arg w2)) k = Some d2 ->
  d1 = d2 /\
  d1 = payload_bytes (Z.of_nat k) /\
  Serial.writes_of (client_traffic self arg w1)
    = firstn (List.length (client_responses self arg w1))
             (map payload_bytes (range (num_runs_of arg + 1))) /\
  Serial.writes_of (client_traffic self arg w2)
    = firstn (List.length (client_responses self arg w2))
             (map payload_bytes (range (num_runs_of arg + 1))).
Proof.
  assert (Hw : forall w,
    Serial.writes_of (client_traffic self arg w)
    = firstn (List.length (client_responses self arg w))
             (map payload_bytes (range (num_runs_of arg + 1)))).
  { intros w. rewrite client_writes.
    destruct (echo_client_traffic self arg w) as (_ & _ & Hlen & _).
    unfold range. rewrite !firstn_map, firstn_seq by assumption.
    rewrite map_map. reflexivity. }
  intros H1 H2.
  destruct (echo_client_traffic self arg w1) as (_ & Ht1 & _).
  destruct (echo_client_traffic self arg w2) as (_ & Ht2 & _).
  rewrite Ht1 in H1. rewrite Ht2 in H2.
  apply nth_error_writes_of_exchanges in H1, H2.
  destruct H1 as [-> _], H2 as [-> _].
  split; [reflexivity|]. split; [reflexivity|]. split; apply Hw.
Qed.

Lemma C10_writes_independent_of_responses_witness :
  line "TX_run_1" = line "TX_run_1" /\
  client_responses an_interface (Some 2)
    (line_with [] [line "RX_run_0"; line "RX_run_1"; line "RX_run_2"])
  <> client_responses an_interface (Some 2)
    (line_with [] [line "RX_run_0"; line "RX_run_9"; line "RX_run_2"]).
Proof.
  split.
  - apply (C10_writes_independent_of_responses an_interface (Some 2)
             (line_with [] [line "RX_run_0"; line "RX_run_1"; line "RX_run_2"])
             (line_with [] [line "RX_run_0"; line "RX_run_9"; line "RX_run_2"])
             1%nat (line "TX_run_1") (line "TX_run_1"));
      vm_compute; reflexivity.
  - vm_compute. discriminate.
Defined.

End ClientProperties.

(* ===================================================================== *)
(** * Properties of the server *)
(* ===================================================================== *)

Section ServerProperties.

(** A run of the server, in terms of what crossed the port. *)
Lemma echo_server_traffic (passes : nat) (self : Interface) (w : World) :
  server_traffic passes self w
    = flat_map served (Serial.lines_of (server_traffic passes self w)) /\
  List.length (Serial.lines_of (server_traffic passes self w)) = passes /\
  stderr (fst (echo_server passes self w))
    = stderr w ++ flat_map diagnosed (Serial.lines_of (server_traffic passes self w)).
Proof.
  destruct (echo_server_trace passes self w) as (ls & Hlen & _ & _ & Herr & Hlog).
  unfold server_traffic. rewrite (traffic_app _ _ _ Hlog), lines_of_served.
  split; [reflexivity|]. split; assumption.
Qed.

(** C2.  A line the server reads and decodes is answered by that line
    with every occurrence of [TX] replaced by [RX]: what is written
    back is the encoding of [text.replace("TX", "RX")], it has the bytes
    of the line except that [R] stands wherever [TX] occurs (a [T]
    followed by an [X], in whatever case the line has them: only
    capital [T] and [X] count), all occurrences and nothing else; a line
    without [TX] comes back unchanged, [hello_TX_TX] comes back as
    [hello_RX_RX] and [TXTX] as [RXRX]. *)
Theorem C2_server_replaces_TX
  (self : Interface) (w : World) (l : bytes) (p : Serial.Port) (text : str) :
  Serial.readline (port w) = (l, p) ->
  utf8_decode l = Some text ->
  echo_server_pass self w
    = ({| port := Serial.write (tx_to_rx l) p;
          stdout := stdout w; stderr := stderr w |}, inr tt) /\
  utf8_encode (str_replace text (s_lit "TX") (s_lit "RX")) = Some (tx_to_rx l) /\
  traffic w (fst (echo_server_pass self w))
    = [Serial.ReadLine l; Serial.Wrote (tx_to_rx l)] /\
  List.length (tx_to_rx l) = List.length l /\
  (forall i,
     nth_error (tx_to_rx l) i
     = if tx_here (skipn i l) then Some "R"%byte else nth_error l i) /\
  ((forall i, tx_here (skipn i l) = false) -> tx_to_rx l = l) /\
  traffic (line_with [] [line "hello_TX_TX"])
          (fst (echo_server_pass self (line_with [] [line "hello_TX_TX"])))
    = [Serial.ReadLine (line "hello_TX_TX"); Serial.Wrote (line "hello_RX_RX")] /\
  traffic (line_with [] [line "TXTX"])
          (fst (echo_server_pass self (line_with [] [line "TXTX"])))
    = [Serial.ReadLine (line "TXTX"); Serial.Wrote (line "RXRX")].
Proof.
  intros Hr Hd.
  assert (Hpass : echo_server_pass self w
    = ({| port := Serial.write (tx_to_rx l) p;
          stdout := stdout w; stderr := stderr w |}, inr tt)).
  { rewrite echo_server_pass_eq, Hr, Hd. reflexivity. }
  split; [assumption|]. split; [apply response_bytes, Hd|]. split.
  { rewrite Hpass. apply traffic_app. cbn [fst port].
    rewrite log_write, (log_readline _ _ _ Hr), <- app_assoc. reflexivity. }
  split; [apply tx_to_rx_length|]. split; [apply tx_to_rx_nth|].
  split; [apply tx_to_rx_no_occurrence|].
  split; vm_compute; reflexivity.
Qed.

Lemma C2_server_replaces_TX_witness :
  utf8_encode (str_replace (s_lit ("say_TX_tx" ++ LF)) (s_lit "TX") (s_lit "RX"))
  = Some (tx_to_rx (line "say_TX_tx")).
Proof.
  apply (C2_server_replaces_TX an_interface
           (line_with [] [line "say_TX_tx"]) (line "say_TX_tx")
           (snd (Serial.readline (port (line_with [] [line "say_TX_tx"]))))
           (s_lit ("say_TX_tx" ++ LF)));
    vm_compute; reflexivity.
Defined.

(** C4.  When the line the server reads is not valid UTF-8, the pass
    ends normally: no exception leaves it, nothing is written to the
    port for that line, one report naming the payload goes to
    [sys.stderr], and the loop goes on to its next pass, serving the
    lines that follow as usual. *)
Theorem C4_decode_failure_is_isolated
  (self : Interface) (w : World) (l : bytes) (p : Serial.Port) (more : nat) :
  Serial.readline (port w) = (l, p) ->
  utf8_decode l = None ->
  echo_server_pass self w
    = ({| port := p; stdout := stdout w;
          stderr := stderr w ++ [Failed_to_decode_payload l] |}, inr tt) /\
  traffic w (fst (echo_server_pass self w)) = [Serial.ReadLine l] /\
  echo_server (S more) self w
    = echo_server more self (fst (echo_server_pass self w)) /\
  snd (echo_server (S more) self w) = inr Running /\
  server_traffic (S more) self w
    = Serial.ReadLine l
      :: flat_map served
           (Serial.lines_of
              (server_traffic more self (fst (echo_server_pass self w)))).
Proof.
  intros Hr Hd.
  assert (Hpass : echo_server_pass self w
    = ({| port := p; stdout := stdout w;
          stderr := stderr w ++ [Failed_to_decode_payload l] |}, inr tt)).
  { rewrite echo_server_pass_eq, Hr, Hd. reflexivity. }
  assert (Hone : traffic w (fst (echo_server_pass self w)) = [Serial.ReadLine l]).
  { rewrite Hpass. apply traffic_app. cbn [fst port].
    apply (log_readline _ _ _ Hr). }
  assert (Hnext : echo_server (S more) self w
    = echo_server more self (fst (echo_server_pass self w))).
  { rewrite echo_server_S, Hpass. reflexivity. }
  split; [assumption|]. split; [assumption|]. split; [assumption|].
  split.
  { destruct (echo_server_trace (S more) self w) as (_ & _ & Hrun & _).
    assumption. }
  unfold server_traffic. rewrite Hnext.
  assert (Hl1 : Serial.log (port (fst (echo_server_pass self w)))
                = Serial.log (port w) ++ [Serial.ReadLine l]).
  { rewrite Hpass. cbn [fst port]. apply (log_readline _ _ _ Hr). }
  destruct (echo_server_trace more self (fst (echo_server_pass self w)))
    as (ls & _ & _ & _ & _ & Hlog).
  rewrite (traffic_app _ _ _ Hlog), lines_of_served.
  apply traffic_app. rewrite Hlog, Hl1, <- app_assoc. reflexivity.
Qed.

Lemma C4_decode_failure_is_isolated_witness :
  server_traffic 2 an_interface (line_with [] [[xff; x0a]; line "TX_ok"])
  = [Serial.ReadLine [xff; x0a];
     Serial.ReadLine (line "TX_ok"); Serial.Wrote (line "RX_ok")]
  /\ stderr (fst (echo_server 2 an_interface
                    (line_with [] [[xff; x0a]; line "TX_ok"])))
     = [Failed_to_decode_payload [xff; x0a]].
Proof.
  split; [|vm_compute; reflexivity].
  etransitivity.
  - apply (C4_decode_failure_is_isolated an_interface
             (line_with [] [[xff; x0a]; line "TX_ok"]) [xff; x0a]
             (snd (Serial.readline
                     (port (line_with [] [[xff; x0a]; line "TX_ok"]))))
             1%nat);
      vm_compute; reflexivity.
  - vm_compute. reflexivity.
Defined.

(** C7.  The loop of [echo_server] has no way out of its own: whatever
    the lines it reads, and however many passes are observed, no
    exception leaves a pass, so after any number of passes the server
    has read that many lines and is still running.  (A signal reaches
    the process from outside and is no part of this.) *)
Theorem C7_server_never_terminates (passes : nat) (self : Interface) (w : World) :
  snd (echo_server_pass self w) = inr tt /\
  snd (echo_server passes self w) = inr Running /\
  List.length (Serial.lines_of (server_traffic passes self w)) = passes.
Proof.
  split.
  - rewrite echo_server_pass_eq.
    destruct (Serial.readline (port w)) as [l p].
    destruct (utf8_decode l); reflexivity.
  - destruct (echo_server_trace passes self w) as (_ & _ & Hrun & _).
    destruct (echo_server_traffic passes self w) as (_ & Hlen & _).
    split; assumption.
Qed.

End ServerProperties.

(* ===================================================================== *)
(** * Payload termination *)
(* ===================================================================== *)

Section Termination.

(** C6, as stated, fails on the server: a read that times out after the
    two bytes [TX] is answered by the two bytes [RX], with no line
    separator at their end. *)
Lemma C6_unterminated_response :
  In (b_lit "RX")
     (Serial.writes_of (server_traffic 1 an_interface (line_with [] [b_lit "TX"])))
  /\ terminated (b_lit "RX") = false.
Proof. split; [vm_compute; left; reflexivity | reflexivity]. Qed.

(** C6, amended.  Every payload the client writes ends with the line
    separator.  Every payload the server writes is the answer to a
    line it read and decoded, and ends with the line separator exactly
    when that line does: a complete line is answered by a complete
    line, an unterminated read (a timeout) by unterminated bytes. *)
Theorem C6_payload_termination
  (self : Interface) (arg : option Z) (passes : nat) (w : World) (d : bytes) :
  (In d (Serial.writes_of (client_traffic self arg w)) -> terminated d = true) /\
  (In d (Serial.writes_of (server_traffic passes self w)) ->
   exists l,
     In l (Serial.lines_of (server_traffic passes self w))
     /\ utf8_decode l <> None
     /\ d = tx_to_rx l
     /\ terminated d = terminated l).
Proof.
  split.
  - rewrite client_writes, in_map_iff. intros (k & <- & _).
    apply payload_terminated.
  - destruct (echo_server_traffic passes self w) as (Ht & _).
    rewrite Ht at 1. intros H.
    destruct (writes_of_served _ _ H) as (l & Hin & Hd & ->).
    exists l. split; [assumption|]. split; [assumption|].
    split; [reflexivity | apply tx_to_rx_terminated].
Qed.

Lemma C6_payload_termination_witness :
  terminated (line "TX_run_0") = true
  /\ exists l,
       In l (Serial.lines_of
               (server_traffic 1 an_interface (line_with [] [line "TX_run_0"])))
       /\ utf8_decode l <> None
       /\ line "RX_run_0" = tx_to_rx l
       /\ terminated (line "RX_run_0") = terminated l.
Proof.
  split.
  - apply (C6_payload_termination an_interface (Some 0) 1
             (line_with [] []) (line "TX_run_0")).
    vm_compute. left. reflexivity.
  - apply (C6_payload_termination an_interface (Some 0) 1
             (line_with [] [line "TX_run_0"]) (line "RX_run_0")).
    vm_compute. left. reflexivity.
Defined.

End Termination.

(* ===================================================================== *)
(** * Constructing the adapter *)
(* ===================================================================== *)

Section Constructors.

(** [SerialInterface.__init__], statement by statement. *)
Lemma SerialInterface_init_eq (dev : string) (b t : Z) (w : World) :
  SerialInterface_init dev b t w =
  ({| port := Serial.open (port w) dev b t;
      stdout := stdout w; stderr := stderr w |},
   if 0 <? Z.of_nat (List.length (Serial.on_open (port w)))
   then inl (NameError "ser")
   else inr {| device := dev |}).
Proof.
  unfold SerialInterface_init, bind, with_port, port_in_waiting.
  cbn [port stdout stderr].
  change (Serial.in_waiting (Serial.open (port w) dev b t))
    with (Z.of_nat (List.length (Serial.on_open (port w)))).
  destruct (0 <? Z.of_nat (List.length (Serial.on_open (port w))));
    reflexivity.
Qed.

Lemma traffic_same_log (w w' : World) :
  Serial.log (port w') = Serial.log (port w) -> traffic w w' = [].
Proof. intros H. unfold traffic. rewrite H. apply skipn_all. Qed.

(** When nothing arrives while the port is being opened,
    [SerialInterface.__init__] returns and reads nothing; what was
    received before the opening is gone. *)
Lemma SerialInterface_init_idle (dev : string) (b t : Z) (w : World) :
  Serial.on_open (port w) = [] ->
  snd (SerialInterface_init dev b t w) = inr {| device := dev |}
  /\ Serial.in_buffer (port (fst (SerialInterface_init dev b t w))) = []
  /\ traffic w (fst (SerialInterface_init dev b t w)) = [].
Proof.
  intros H. rewrite SerialInterface_init_eq, H. cbn [fst snd port Serial.open
    Serial.in_buffer].
  split; [reflexivity|].
  split; [exact H | apply traffic_same_log; reflexivity].
Qed.

(** When bytes have arrived since the opening reset the buffer,
    [SerialInterface.__init__] raises [NameError] before it reads any
    of them. *)
Lemma SerialInterface_init_buffered (dev : string) (b t : Z) (w : World) :
  Serial.on_open (port w) <> [] ->
  snd (SerialInterface_init dev b t w) = inl (NameError "ser")
  /\ Serial.in_buffer (port (fst (SerialInterface_init dev b t w)))
     = Serial.on_open (port w)
  /\ traffic w (fst (SerialInterface_init dev b t w)) = [].
Proof.
  intros H. rewrite SerialInterface_init_eq.
  destruct (Serial.on_open (port w)) as [|c r] eqn:E; [congruence|].
  assert (Hpos : (0 <? Z.of_nat (List.length (c :: r))) = true)
    by (apply Z.ltb_lt; change (List.length (c :: r)) with (S (List.length r)); lia).
  rewrite Hpos.
  split; [reflexivity|].
  split; [exact E | apply traffic_same_log; reflexivity].
Qed.

(** [RS485Interface.__init__] never looks at the input buffer. *)
Lemma RS485Interface_init_no_drain (dev : string) (b t : Z) (w : World) :
  snd (RS485Interface_init dev b t w) = inr {| device := dev |}
  /\ Serial.in_buffer (port (fst (RS485Interface_init dev b t w)))
     = Serial.on_open (port w)
  /\ traffic w (fst (RS485Interface_init dev b t w)) = [].
Proof.
  split; [reflexivity|].
  split; [reflexivity | apply traffic_same_log; reflexivity].
Qed.

(** C5.  Bytes received before the port is opened are discarded by the
    opening itself, for both adapters: on [stale_line] both
    constructors return with an empty buffer, and an exchange that
    follows reads the peer's reply.  The draining of the constructors
    is another matter.  On [racing_line], where bytes arrive after the
    opening has reset the buffer, the plain adapter raises [NameError]
    at its draining statement and the bytes stay where they are; the
    RS485 adapter is constructed without any draining, and the first
    exchange that follows reads the stale bytes as its response and
    fails, although the peer answers as awaited. *)
Theorem C5_constructors_do_not_drain :
  snd (SerialInterface_init "/dev/ttyUSB0" 115200 3 stale_line)
    = inr an_interface /\
  Serial.in_buffer
    (port (fst (SerialInterface_init "/dev/ttyUSB0" 115200 3 stale_line)))
    = [] /\
  snd (RS485Interface_init "/dev/ttyUSB0" 115200 3 stale_line)
    = inr an_interface /\
  Serial.in_buffer
    (port (fst (RS485Interface_init "/dev/ttyUSB0" 115200 3 stale_line)))
    = [] /\
  client_result an_interface (Some 0)
    (fst (RS485Interface_init "/dev/ttyUSB0" 115200 3 stale_line))
    = inr tt /\
  snd (SerialInterface_init "/dev/ttyUSB0" 115200 3 racing_line)
    = inl (NameError "ser") /\
  Serial.in_buffer
    (port (fst (SerialInterface_init "/dev/ttyUSB0" 115200 3 racing_line)))
    = line "stale" /\
  traffic racing_line
    (fst (SerialInterface_init "/dev/ttyUSB0" 115200 3 racing_line)) = [] /\
  snd (RS485Interface_init "/dev/ttyUSB0" 115200 3 racing_line)
    = inr an_interface /\
  Serial.in_buffer
    (port (fst (RS485Interface_init "/dev/ttyUSB0" 115200 3 racing_line)))
    = line "stale" /\
  traffic racing_line
    (fst (RS485Interface_init "/dev/ttyUSB0" 115200 3 racing_line)) = [] /\
  client_result an_interface (Some 0)
    (fst (RS485Interface_init "/dev/ttyUSB0" 115200 3 racing_line))
    = inl (InvalidSerial5Reponse (line "stale") (line "RX_run_0")).
Proof. repeat split; vm_compute; reflexivity. Qed.

End Constructors.

(* ===================================================================== *)
(** * Worked runs *)
(* ===================================================================== *)

Section WorkedRuns.


Example utf8_decode_ascii :
  utf8_decode (b_lit "hello_TX_TX") = Some (s_lit "hello_TX_TX").
Proof. reflexivity. Qed.

Example utf8_decode_euro :
  utf8_decode [xe2; x82; xac] = Some [0x20AC].
Proof. reflexivity. Qed.

Example utf8_decode_overlong : utf8_decode [xc0; x80] = None.
Proof. reflexivity. Qed.

Example utf8_decode_surrogate : utf8_decode [xed; xa0; x80] = None.
Proof. reflexivity. Qed.

Example utf8_decode_truncated : utf8_decode [xe2; x82] = None.
Proof. reflexivity. Qed.

Example utf8_encode_euro : utf8_encode [0x20AC] = Some [xe2; x82; xac].
Proof. reflexivity. Qed.

Example utf8_encode_astral :
  utf8_encode [0x1F600] = Some [xf0; x9f; x98; x80].
Proof. reflexivity. Qed.

Example utf8_encode_surrogate : utf8_encode [0xD800] = None.
Proof. reflexivity. Qed.

Example str_replace_ex :
  str_replace (s_lit "TXTX_T_XTX") (s_lit "TX") (s_lit "RX") = s_lit "RXRX_T_XRX".
Proof. reflexivity. Qed.

Example str_replace_overlap :
  str_replace (s_lit "aaa") (s_lit "aa") (s_lit "b") = s_lit "ba".
Proof. reflexivity. Qed.

Example str_replace_empty_old :
  str_replace (s_lit "ab") (s_lit "") (s_lit "-") = s_lit "-a-b-".
Proof. reflexivity. Qed.

Example format_int_ex : format_int 10 = s_lit "10".
Proof. reflexivity. Qed.

Example range_ex : range 3 = [0; 1; 2].
Proof. reflexivity. Qed.

Example range_neg : range (-4) = [].
Proof. reflexivity. Qed.

Example payload_bytes_10 : payload_bytes 10 = line "TX_run_10".
Proof. reflexivity. Qed.

Example readline_complete :
  Serial.readline_from (b_lit "ab") [b_lit "c"; line "d"; b_lit "e"]
  = (line "abcd", ([], [b_lit "e"])).
Proof. reflexivity. Qed.

Example readline_keeps_rest :
  Serial.readline_from (line "one" ++ b_lit "tw") [line "o"]
  = (line "one", (b_lit "tw", [line "o"])).
Proof. reflexivity. Qed.

Example readline_timeout_partial :
  Serial.readline_from (b_lit "ab") [b_lit "c"] = (b_lit "abc", ([], [])).
Proof. reflexivity. Qed.

Example readline_timeout_empty :
  Serial.readline_from [] [] = ([], ([], [])).
Proof. reflexivity. Qed.

(** The client against a peer that answers all eleven runs. *)
Example main_client_ok :
  let w := line_with []
             (map (fun k => expected_bytes (Z.of_nat k)) (seq 0 11)) in
  let args := {| args_device := "/dev/ttyUSB0"; baud := 115200; rs485 := false;
                 response_timeout := 3; mode := client |} in
  snd (main 0 args w) = inr Returned
  /\ stdout (fst (main 0 args w)) = [TEST_OK]
  /\ List.length (Serial.writes_of (Serial.log (port (fst (main 0 args w)))))
     = 11%nat.
Proof. vm_compute. repeat split. Qed.

(** The client against a peer that stays silent. *)
Example main_client_silent_peer :
  let args := {| args_device := "/dev/ttyUSB0"; baud := 115200; rs485 := true;
                 response_timeout := 3; mode := client |} in
  snd (main 0 args (line_with [] [])) = inl (SystemExit (Some 1))
  /\ stdout (fst (main 0 args (line_with [] [])))
     = [ERROR (InvalidSerial5Reponse [] (line "RX_run_0"))]
  /\ Serial.log (port (fst (main 0 args (line_with [] []))))
     = [Serial.Wrote (line "TX_run_0"); Serial.ReadLine []].
Proof. vm_compute. repeat split. Qed.

(** The server over a complete line, a line that is not UTF-8, a
    partial line and then silence. *)
Example main_server :
  let args := {| args_device := "/dev/ttyUSB0"; baud := 115200; rs485 := false;
                 response_timeout := 3; mode := server |} in
  let w := line_with [] [line "TX_run_0"; [xc3; x28; x0a]; b_lit "TXT"] in
  snd (main 4 args w) = inr Serving
  /\ stderr (fst (main 4 args w)) = [Failed_to_decode_payload [xc3; x28; x0a]]
  /\ Serial.log (port (fst (main 4 args w)))
     = [Serial.ReadLine (line "TX_run_0"); Serial.Wrote (line "RX_run_0");
        Serial.ReadLine [xc3; x28; x0a];
        Serial.ReadLine (b_lit "TXT"); Serial.Wrote (b_lit "RXT");
        Serial.ReadLine []; Serial.Wrote []].
Proof. vm_compute. repeat split. Qed.

(** The plain adapter on a line with bytes received before the
    opening: they are discarded by the opening, the adapter is
    constructed, and run 0 reads the reply of the peer. *)
Example main_plain_stale :
  let args := {| args_device := "/dev/ttyUSB0"; baud := 115200; rs485 := false;
                 response_timeout := 3; mode := client |} in
  snd (main 0 args stale_line) = inl (SystemExit (Some 1))
  /\ stdout (fst (main 0 args stale_line))
     = [ERROR (InvalidSerial5Reponse [] (line "RX_run_1"))]
  /\ Serial.log (port (fst (main 0 args stale_line)))
     = [Serial.Wrote (line "TX_run_0"); Serial.ReadLine (line "RX_run_0");
        Serial.Wrote (line "TX_run_1"); Serial.ReadLine []].
Proof. vm_compute. repeat split. Qed.

(** The plain adapter on a line on which bytes arrive while the port is
    being opened: [main] ends with the [NameError]. *)
Example main_plain_racing :
  let args := {| args_device := "/dev/ttyUSB0"; baud := 115200; rs485 := false;
                 response_timeout := 3; mode := client |} in
  snd (main 0 args racing_line) = inl (NameError "ser")
  /\ stdout (fst (main 0 args racing_line)) = [].
Proof. vm_compute. repeat split. Qed.

End WorkedRuns.

(* ===================================================================== *)
(** * More on the client *)
(* ===================================================================== *)

Section ClientOutcomes.

Lemma all_match_expected (a n : nat) (rs : list bytes) :
  (List.length rs = n /\ all_match (Z.of_nat a) rs)
  <-> rs = map expected_bytes (map Z.of_nat (seq a n)).
Proof.
  revert a rs. induction n as [|n IH]; intros a rs.
  - split.
    + intros [Hl _]. destruct rs; [reflexivity | discriminate].
    + intros ->. split; [reflexivity|]. intros [|i] r H; discriminate.
  - split.
    + intros [Hl Hm]. destruct rs as [|r rs]; [discriminate|].
      cbn [seq map]. f_equal.
      * rewrite (Hm O r eq_refl). f_equal. lia.
      * apply IH. split; [simpl in Hl; lia|].
        intros i x Hx. rewrite (Hm (S i) x Hx). f_equal. lia.
    + intros ->. cbn [seq map]. split.
      * cbn [List.length]. rewrite !length_map, length_seq. reflexivity.
      * intros [|i] x Hx; cbn [nth_error] in Hx.
        -- apply Some_eq in Hx. subst x. f_equal. lia.
        -- destruct (proj2 (IH (S a) _) eq_refl) as [_ Hm].
           rewrite (Hm i x Hx). f_equal. lia.
Qed.

(** X1.  With [num_runs <= -1] the range of the loop is empty: the call
    returns at once, and the world is as it was, nothing written and
    nothing read. *)
Theorem X1_echo_client_negative_num_runs
  (self : Interface) (num_runs : Z) (w : World) :
  num_runs <= -1 ->
  echo_client self (Some num_runs) w = (w, inr tt)
  /\ client_traffic self (Some num_runs) w = [].
Proof.
  intros H.
  assert (E : echo_client self (Some num_runs) w = (w, inr tt)).
  { unfold echo_client, range. cbn [num_runs_of].
    replace (Z.to_nat (num_runs + 1)) with O by lia. reflexivity. }
  split; [assumption|].
  unfold client_traffic. rewrite E. apply traffic_same_log. reflexivity.
Qed.

Lemma X1_echo_client_negative_num_runs_witness :
  echo_client an_interface (Some (-3)) stale_line = (stale_line, inr tt)
  /\ client_traffic an_interface (Some (-3)) stale_line = [].
Proof.
  apply (X1_echo_client_negative_num_runs an_interface (-3) stale_line). lia.
Defined.

(** X2.  A call of [echo_client] returns normally exactly when the
    lines it read are the awaited replies of all the runs, [RX_run_0]
    to [RX_run_{num_runs}], in that order.  Otherwise it raises
    [InvalidSerial5Reponse] and no other exception; its expected field
    is the awaited reply of the last exchange performed.  In neither
    case does the call print anything. *)
Theorem X2_echo_client_succeeds_iff
  (self : Interface) (arg : option Z) (w : World) :
  (client_result self arg w = inr tt
   <-> client_responses self arg w
       = map expected_bytes (range (num_runs_of arg + 1))) /\
  (client_result self arg w = inr tt
   \/ exists r,
        client_result self arg w
        = inl (InvalidSerial5Reponse r
                 (expected_bytes
                    (Z.of_nat (List.length (client_responses self arg w)) - 1)))
        /\ r <> expected_bytes
                  (Z.of_nat (List.length (client_responses self arg w)) - 1)
        /\ last (client_responses self arg w) [] = r) /\
  stdout (fst (echo_client self arg w)) = stdout w /\
  stderr (fst (echo_client self arg w)) = stderr w.
Proof.
  destruct (echo_client_trace self arg w) as (rs0 & Hout & Herr & _).
  destruct (echo_client_traffic self arg w) as (_ & _ & _ & _ & Hall & Hok).
  split; [|split; [|split; assumption]].
  - unfold range. rewrite <- (all_match_expected 0). split.
    + intros H. destruct (Hok H). split; assumption.
    + intros [Hl Hm]. apply (Hall Hm).
  - rewrite echo_client_unfold in *. unfold client_result, client_responses,
      client_traffic. rewrite echo_client_unfold.
    destruct (for_each_runs (Z.to_nat (num_runs_of arg + 1)) 0 w)
      as (rs & _ & _ & Hlog & Hres).
    cbv zeta in Hlog, Hres. change (Z.of_nat 0) with 0 in *.
    rewrite (traffic_app _ _ _ Hlog), lines_of_exchanges.
    destruct Hres as [(Hr & _) | (rs1 & r & -> & _ & _ & Hne & Hr)];
      [left; assumption|].
    right. exists r. rewrite length_app. cbn [List.length].
    replace (Z.of_nat (List.length rs1 + 1) - 1)
      with (0 + Z.of_nat (List.length rs1)) by lia.
    split; [assumption|]. split; [assumption|]. apply last_last.
Qed.

End ClientOutcomes.

(* ===================================================================== *)
(** * Decoding what was encoded *)
(* ===================================================================== *)

Section CodecComplete.

Ltac settle_if :=
  match goal with
  | |- context [if ?b then _ else _] =>
    first
      [ replace b with true by (Z.to_euclidean_division_equations; lia)
      | replace b with false by (Z.to_euclidean_division_equations; lia) ]
  end.

(** Decoding the encoding of a code point gives it back, whatever
    follows. *)
Lemma utf8_decode_encoded (c : Z) (enc rest : bytes) :
  utf8_encode_char c = Some enc ->
  utf8_decode (enc ++ rest) = option_map (cons c) (utf8_decode rest).
Proof.
  unfold utf8_encode_char. intros H.
  repeat match type of H with
  | (if ?g then _ else _) = _ => destruct g eqn:?
  end; try discriminate; apply Some_eq in H; subst enc;
  cbn [app utf8_decode]; cbv zeta; unfold is_cont;
  rewrite !ord_byte_of by (Z.to_euclidean_division_equations; lia);
  repeat settle_if;
  (destruct (utf8_decode rest); [cbn [option_map]; do 2 f_equal | reflexivity]);
  Z.to_euclidean_division_equations; lia.
Qed.

Lemma utf8_decode_of_utf8 (bs : bytes) (s : str) :
  utf8 bs s -> utf8_decode bs = Some s.
Proof.
  induction 1 as [|c enc rest s Hc _ IH]; [reflexivity|].
  rewrite (utf8_decode_encoded _ _ _ Hc), IH. reflexivity.
Qed.

Lemma utf8_of_encode (s : str) :
  forall bs, utf8_encode s = Some bs -> utf8 bs s.
Proof.
  induction s as [|c s IH]; intros bs H; cbn [utf8_encode] in H.
  - apply Some_eq in H. subst. constructor.
  - destruct (utf8_encode_char c) as [e|] eqn:Hc; [|discriminate].
    destruct (utf8_encode s) as [r|]; [|discriminate].
    apply Some_eq in H. subst. apply utf8_cons; [assumption | apply IH; reflexivity].
Qed.

End CodecComplete.

(* ===================================================================== *)
(** * The requests and the replies *)
(* ===================================================================== *)

Section Requests.

Lemma decimal_chars_uint (d : Decimal.uint) :
  Forall (fun a => is_decimal_char a = true)
         (list_ascii_of_string (NilEmpty.string_of_uint d)).
Proof.
  induction d; simpl; constructor; (assumption || reflexivity).
Qed.

Lemma decimal_chars (z : Z) :
  Forall (fun a => is_decimal_char a = true) (list_ascii_of_string (decimal z)).
Proof.
  unfold decimal, NilZero.string_of_int, NilZero.string_of_uint.
  destruct (Z.to_int z) as [d | d]; destruct d;
    try (repeat constructor; fail);
    try apply (decimal_chars_uint (_ d));
    (cbn [list_ascii_of_string]; constructor;
     [reflexivity | try apply (decimal_chars_uint (_ d)); repeat constructor]).
Qed.

Lemma to_N_byte_of_ascii (a : ascii) : Byte.to_N (byte_of_ascii a) = N_of_ascii a.
Proof. apply Byte.to_of_N. symmetry. apply byte_of_ascii_via_N. Qed.

Lemma ord_byte_of_ascii (a : ascii) :
  ord_byte (byte_of_ascii a) = Z.of_N (N_of_ascii a).
Proof. unfold ord_byte. rewrite to_N_byte_of_ascii. reflexivity. Qed.

(** The bytes of a decimal numeral are neither [T] nor the newline. *)
Lemma decimal_bytes (z : Z) :
  Forall (fun b => Byte.eqb b "T"%byte = false
                   /\ Byte.eqb b Serial.newline = false)
         (b_lit (decimal z)).
Proof.
  unfold b_lit, list_byte_of_string. apply Forall_map.
  eapply Forall_impl; [|apply decimal_chars].
  intros a Ha. unfold is_decimal_char in Ha. cbv zeta in Ha.
  rewrite !byte_eqb_ord, ord_byte_of_ascii.
  change (ord_byte "T") with 84. change (ord_byte Serial.newline) with 10.
  apply orb_true_iff in Ha. rewrite andb_true_iff, !N.leb_le, N.eqb_eq in Ha.
  split; apply Z.eqb_neq; lia.
Qed.

Lemma tx_to_rx_plain (l rest : bytes) :
  Forall (fun b => Byte.eqb b "T"%byte = false) l ->
  tx_to_rx (l ++ rest) = l ++ tx_to_rx rest.
Proof.
  induction 1 as [|b l Hb _ IH]; [reflexivity|].
  change ((b :: l) ++ rest) with (b :: (l ++ rest)).
  cbn [tx_to_rx]. rewrite tx_here_cons, Hb, IH. reflexivity.
Qed.

(** The server's answer to the request of run [k] is the reply the
    client awaits in run [k]. *)
Lemma tx_to_rx_payload (k : Z) : tx_to_rx (payload_bytes k) = expected_bytes k.
Proof.
  unfold payload_bytes, expected_bytes. rewrite !b_lit_app.
  change (b_lit "TX_run_")
    with ["T"; "X"; "_"; "r"; "u"; "n"; "_"]%byte.
  change (b_lit "RX_run_")
    with ["R"; "X"; "_"; "r"; "u"; "n"; "_"]%byte.
  cbn [app tx_to_rx]. rewrite !tx_here_cons.
  cbn [Byte.eqb head_is_X andb]. do 7 f_equal.
  rewrite tx_to_rx_plain.
  - reflexivity.
  - eapply Forall_impl; [|apply decimal_bytes]. intros b [H _]. exact H.
Qed.

Lemma split_line_complete (s rest : bytes) :
  Forall (fun b => Byte.eqb b Serial.newline = false) s ->
  Serial.split_line (s ++ Serial.newline :: rest)
  = Some (s ++ [Serial.newline], rest).
Proof.
  induction 1 as [|b s Hb _ IH]; [reflexivity|].
  cbn [app Serial.split_line]. rewrite Hb, IH. reflexivity.
Qed.

(** A line is complete when the newline is its last byte and its only
    one. *)
Lemma readline_from_next (l : bytes) (more : list bytes) :
  Serial.split_line l = Some (l, []) ->
  Serial.readline_from [] (l :: more) = (l, ([], more)).
Proof.
  intros H. cbn [Serial.readline_from Serial.split_line app].
  destruct more; cbn [Serial.readline_from]; rewrite H; reflexivity.
Qed.

Lemma line_complete (prefix : string) (k : Z) :
  forallb (fun b => negb (Byte.eqb b Serial.newline)) (b_lit prefix) = true ->
  Serial.split_line (b_lit (prefix ++ decimal k ++ LF))
  = Some (b_lit (prefix ++ decimal k ++ LF), []).
Proof.
  intros Hp. rewrite !b_lit_app. change (b_lit LF) with [Serial.newline].
  rewrite app_assoc. apply split_line_complete, Forall_app. split.
  - apply Forall_forall. intros b Hb.
    rewrite forallb_forall in Hp. apply negb_true_iff, Hp, Hb.
  - eapply Forall_impl; [|apply decimal_bytes]. intros b [_ H]. exact H.
Qed.

Lemma payload_complete (k : Z) :
  Serial.split_line (payload_bytes k) = Some (payload_bytes k, []).
Proof. apply line_complete. reflexivity. Qed.

Lemma expected_complete (k : Z) :
  Serial.split_line (expected_bytes k) = Some (expected_bytes k, []).
Proof. apply line_complete. reflexivity. Qed.

Lemma payload_decodes (k : Z) : utf8_decode (payload_bytes k) <> None.
Proof.
  rewrite (utf8_decode_of_utf8 _ _ (utf8_of_encode _ _ (encode_payload k))).
  discriminate.
Qed.

(** Reading from an empty buffer when a complete line is delivered
    next. *)
Lemma readline_next (p : Serial.Port) (l : bytes) (more : list bytes) :
  Serial.in_buffer p = [] ->
  Serial.incoming p = l :: more ->
  Serial.split_line l = Some (l, []) ->
  Serial.readline p = (l, Serial.set_io p [] more [Serial.ReadLine l]).
Proof.
  intros Hb Hi Hl. unfold Serial.readline.
  rewrite Hb, Hi, (readline_from_next _ _ Hl). reflexivity.
Qed.

(** The server over the requests of the runs [ks], delivered one after
    the other. *)
Lemma echo_server_requests (self : Interface) (ks : list Z) :
  forall (w : World) (more : list bytes),
  Serial.in_buffer (port w) = [] ->
  Serial.incoming (port w) = map payload_bytes ks ++ more ->
  snd (echo_server (List.length ks) self w) = inr Running /\
  Serial.log (port (fst (echo_server (List.length ks) self w)))
    = Serial.log (port w)
      ++ flat_map (fun k => [Serial.ReadLine (payload_bytes k);
                             Serial.Wrote (expected_bytes k)]) ks /\
  Serial.in_buffer (port (fst (echo_server (List.length ks) self w))) = [] /\
  Serial.incoming (port (fst (echo_server (List.length ks) self w))) = more /\
  stderr (fst (echo_server (List.length ks) self w)) = stderr w.
Proof.
  induction ks as [|k ks IH]; intros w more Hb Hi.
  - cbn [List.length echo_server map app flat_map] in *. unfold ret.
    cbn [fst snd]. rewrite app_nil_r. repeat split; assumption.
  - cbn [List.length map app] in *.
    rewrite echo_server_S, echo_server_pass_eq.
    rewrite (readline_next _ _ _ Hb Hi (payload_complete k)).
    destruct (utf8_decode (payload_bytes k)) eqn:Hd;
      [|exfalso; apply (payload_decodes k Hd)].
    rewrite tx_to_rx_payload.
    destruct (IH {| port := Serial.write (expected_bytes k)
                              (Serial.set_io (port w) [] (map payload_bytes ks ++ more)
                                 [Serial.ReadLine (payload_bytes k)]);
                    stdout := stdout w; stderr := stderr w |} more)
      as (Hrun & Hlog & Hb' & Hi' & Herr); [reflexivity | reflexivity |].
    split; [assumption|]. split.
    { rewrite Hlog. cbn [port Serial.write Serial.set_io Serial.log flat_map].
      rewrite <- !app_assoc. reflexivity. }
    split; [assumption|]. split; assumption.
Qed.

(** The client when the awaited replies are delivered one after the
    other. *)
Lemma echo_client_replies (n : nat) :
  forall (a : nat) (w : World) (more : list bytes),
  Serial.in_buffer (port w) = [] ->
  Serial.incoming (port w)
    = map expected_bytes (map Z.of_nat (seq a n)) ++ more ->
  snd (for_each (map Z.of_nat (seq a n)) echo_client_run w) = inr tt /\
  Serial.log (port (fst (for_each (map Z.of_nat (seq a n)) echo_client_run w)))
    = Serial.log (port w)
      ++ exchanges (Z.of_nat a) (map expected_bytes (map Z.of_nat (seq a n))) /\
  Serial.in_buffer
    (port (fst (for_each (map Z.of_nat (seq a n)) echo_client_run w))) = [] /\
  Serial.incoming
    (port (fst (for_each (map Z.of_nat (seq a n)) echo_client_run w))) = more.
Proof.
  induction n as [|n IH]; intros a w more Hb Hi.
  - cbn [seq map for_each app exchanges] in *. unfold ret. cbn [fst snd].
    rewrite app_nil_r. repeat split; assumption.
  - cbn [seq map app] in *. rewrite for_each_cons, echo_client_run_eq.
    rewrite (readline_next (Serial.write (payload_bytes (Z.of_nat a)) (port w))
               (expected_bytes (Z.of_nat a))
               (map expected_bytes (map Z.of_nat (seq (S a) n)) ++ more)
               Hb Hi (expected_complete _)).
    rewrite bytes_eqb_refl.
    destruct (IH (S a)
               {| port := Serial.set_io
                            (Serial.write (payload_bytes (Z.of_nat a)) (port w)) []
                            (map expected_bytes (map Z.of_nat (seq (S a) n)) ++ more)
                            [Serial.ReadLine (expected_bytes (Z.of_nat a))];
                  stdout := stdout w; stderr := stderr w |} more)
      as (Hres & Hlog & Hb' & Hi'); [reflexivity | reflexivity |].
    split; [assumption|]. split.
    { rewrite Hlog. cbn [port Serial.write Serial.set_io Serial.log exchanges].
      rewrite <- !app_assoc.
      replace (Z.of_nat a + 1) with (Z.of_nat (S a)) by lia. reflexivity. }
    split; assumption.
Qed.

Lemma to_int_not_nil (z : Z) :
  Z.to_int z <> Decimal.Pos Decimal.Nil /\ Z.to_int z <> Decimal.Neg Decimal.Nil.
Proof.
  destruct z as [|p|p]; cbn [Z.to_int]; split; try discriminate;
    intros H; injection H as H; apply (DecimalPos.Unsigned.to_uint_nonnil p H).
Qed.

(** Distinct integers have distinct numerals. *)
Lemma decimal_inj (j k : Z) : decimal j = decimal k -> j = k.
Proof.
  unfold decimal. intros H. apply DecimalZ.to_int_inj.
  destruct (to_int_not_nil j) as [Hj1 Hj2], (to_int_not_nil k) as [Hk1 Hk2].
  pose proof (NilZero.isi _ Hj1 Hj2) as Ej.
  pose proof (NilZero.isi _ Hk1 Hk2) as Ek.
  rewrite H, Ek in Ej. apply Some_eq in Ej. congruence.
Qed.

Lemma b_lit_inj (x y : string) : b_lit x = b_lit y -> x = y.
Proof.
  unfold b_lit, list_byte_of_string. intros H.
  rewrite <- (string_of_list_ascii_of_string x),
          <- (string_of_list_ascii_of_string y).
  f_equal. revert H. generalize (list_ascii_of_string y).
  induction (list_ascii_of_string x) as [|a l IH]; intros [|c m] H;
    try discriminate; [reflexivity|].
  cbn [map] in H. injection H as Hac Hlm. f_equal; [|apply IH, Hlm].
  rewrite <- (ascii_of_byte_of_ascii a), Hac. apply ascii_of_byte_of_ascii.
Qed.

Lemma numbered_line_inj (prefix : string) (j k : Z) :
  b_lit (prefix ++ decimal j ++ LF) = b_lit (prefix ++ decimal k ++ LF) -> j = k.
Proof.
  rewrite !b_lit_app. intros H.
  apply app_inv_head, app_inv_tail in H.
  apply decimal_inj, b_lit_inj, H.
Qed.

Lemma payload_bytes_inj (j k : Z) : payload_bytes j = payload_bytes k -> j = k.
Proof. apply numbered_line_inj. Qed.

Lemma expected_bytes_inj (j k : Z) : expected_bytes j = expected_bytes k -> j = k.
Proof. apply numbered_line_inj. Qed.

Lemma payload_not_expected (j k : Z) : payload_bytes j <> expected_bytes k.
Proof.
  unfold payload_bytes, expected_bytes. rewrite !b_lit_app.
  intros H. cbn in H. discriminate.
Qed.

(** X3.  The requests of a call are pairwise distinct: distinct runs
    have distinct payloads and distinct awaited replies, so no payload
    is written twice in one call; and no request equals any awaited
    reply, so the client never accepts its own transmission read back
    from the line. *)
Theorem X3_requests_distinct (self : Interface) (arg : option Z) (w : World) :
  NoDup (Serial.writes_of (client_traffic self arg w)) /\
  (forall j k, payload_bytes j = payload_bytes k -> j = k) /\
  (forall j k, expected_bytes j = expected_bytes k -> j = k) /\
  (forall j k, payload_bytes j <> expected_bytes k).
Proof.
  split; [|split; [exact payload_bytes_inj
                  | split; [exact expected_bytes_inj | exact payload_not_expected]]].
  rewrite client_writes. apply NoDup_map_NoDup_ForallPairs; [|apply seq_NoDup].
  intros i j _ _ H. apply payload_bytes_inj in H. lia.
Qed.

Lemma writes_of_answers (ks : list Z) :
  Serial.writes_of
    (flat_map (fun k => [Serial.ReadLine (payload_bytes k);
                         Serial.Wrote (expected_bytes k)]) ks)
  = map expected_bytes ks.
Proof.
  induction ks as [|k ks IH]; [reflexivity|].
  cbn [flat_map app Serial.writes_of map]. rewrite IH. reflexivity.
Qed.

(** X4.  Client and server fit together.  When the requests of a call
    [echo_client(num_runs)] reach a server on an otherwise idle line,
    the server writes back, in order, the replies [RX_run_0] ...
    [RX_run_{num_runs}] and reports nothing; and when these responses
    reach the client on an otherwise idle line, the call writes exactly
    those requests and returns normally. *)
Theorem X4_server_answers_satisfy_client
  (self_c self_s : Interface) (num_runs : Z) (ws wc : World) :
  Serial.in_buffer (port ws) = [] ->
  Serial.incoming (port ws) = map payload_bytes (range (num_runs + 1)) ->
  Serial.in_buffer (port wc) = [] ->
  Serial.incoming (port wc)
    = Serial.writes_of
        (server_traffic (List.length (range (num_runs + 1))) self_s ws) ->
  Serial.writes_of
    (server_traffic (List.length (range (num_runs + 1))) self_s ws)
    = map expected_bytes (range (num_runs + 1)) /\
  stderr (fst (echo_server (List.length (range (num_runs + 1))) self_s ws))
    = stderr ws /\
  client_result self_c (Some num_runs) wc = inr tt /\
  Serial.writes_of (client_traffic self_c (Some num_runs) wc)
    = map payload_bytes (range (num_runs + 1)).
Proof.
  intros Hbs His Hbc Hic.
  destruct (echo_server_requests self_s (range (num_runs + 1)) ws [] Hbs)
    as (_ & Hlog & _ & _ & Herr); [rewrite app_nil_r; exact His|].
  assert (Hw : Serial.writes_of
                 (server_traffic (List.length (range (num_runs + 1))) self_s ws)
               = map expected_bytes (range (num_runs + 1))).
  { unfold server_traffic. rewrite (traffic_app _ _ _ Hlog).
    apply writes_of_answers. }
  rewrite Hw in Hic.
  split; [assumption|]. split; [assumption|].
  unfold range in Hic.
  destruct (echo_client_replies (Z.to_nat (num_runs + 1)) 0 wc [] Hbc)
    as (Hres & Hlogc & _); [rewrite app_nil_r; exact Hic|].
  split.
  - unfold client_result. rewrite echo_client_unfold. exact Hres.
  - unfold client_traffic. rewrite echo_client_unfold. cbn [num_runs_of].
    rewrite (traffic_app _ _ _ Hlogc), (writes_of_exchanges 0).
    rewrite !length_map, length_seq. unfold range. rewrite map_map.
    reflexivity.
Qed.

Lemma X4_server_answers_satisfy_client_witness :
  client_result an_interface (Some 2)
    (line_with []
       (Serial.writes_of
          (server_traffic (List.length (range (2 + 1))) an_interface
             (line_with [] (map payload_bytes (range (2 + 1)))))))
  = inr tt.
Proof.
  apply (X4_server_answers_satisfy_client an_interface an_interface 2
           (line_with [] (map payload_bytes (range (2 + 1))))
           (line_with []
              (Serial.writes_of
                 (server_traffic (List.length (range (2 + 1))) an_interface
                    (line_with [] (map payload_bytes (range (2 + 1))))))));
    reflexivity.
Defined.

End Requests.

(* ===================================================================== *)
(** * More on the server *)
(* ===================================================================== *)

Section ServerRuns.

Lemma head_is_X_tx_to_rx (r : bytes) :
  head_is_X r = false -> head_is_X (tx_to_rx r) = false.
Proof.
  destruct r as [|x r]; [reflexivity|]. cbn [tx_to_rx head_is_X].
  intros H. destruct (tx_here (x :: r)); [reflexivity | exact H].
Qed.

Lemma tx_here_tx_to_rx (l : bytes) : tx_here (tx_to_rx l) = false.
Proof.
  destruct l as [|c r]; [reflexivity|].
  cbn [tx_to_rx]. rewrite tx_here_cons.
  destruct (tx_here (c :: r)) eqn:E; [reflexivity|].
  rewrite tx_here_cons in E. apply andb_false_iff in E.
  destruct E as [E | E]; [rewrite E; reflexivity|].
  rewrite (head_is_X_tx_to_rx _ E). apply andb_false_r.
Qed.

Lemma skipn_tx_to_rx (i : nat) (l : bytes) :
  skipn i (tx_to_rx l) = tx_to_rx (skipn i l).
Proof.
  revert l. induction i as [|i IH]; intros [|c r]; try reflexivity.
  cbn [tx_to_rx skipn]. apply IH.
Qed.

Lemma no_TX_left (l : bytes) (i : nat) : tx_here (skipn i (tx_to_rx l)) = false.
Proof. rewrite skipn_tx_to_rx. apply tx_here_tx_to_rx. Qed.

(** X5.  No payload the server writes contains [TX]: every occurrence
    was replaced and the replacement creates none, so a response that
    passes through a server a second time comes back unchanged. *)
Theorem X5_no_TX_in_responses
  (passes : nat) (self : Interface) (w : World) (d : bytes) :
  In d (Serial.writes_of (server_traffic passes self w)) ->
  (forall i, tx_here (skipn i d) = false) /\ tx_to_rx d = d.
Proof.
  destruct (echo_server_traffic passes self w) as (Ht & _).
  rewrite Ht. intros H.
  destruct (writes_of_served _ _ H) as (l & _ & _ & ->).
  split; [apply no_TX_left | apply tx_to_rx_no_occurrence, no_TX_left].
Qed.

Lemma X5_no_TX_in_responses_witness :
  (forall i, tx_here (skipn i (line "RXRX_T_XRX")) = false)
  /\ tx_to_rx (line "RXRX_T_XRX") = line "RXRX_T_XRX".
Proof.
  apply (X5_no_TX_in_responses 1 an_interface
           (line_with [] [line "TXTX_T_XTX"]) (line "RXRX_T_XRX")).
  vm_compute. left. reflexivity.
Defined.

(** X6.  Decoding and encoding are inverse to each other: bytes decode
    to a text exactly when that text encodes to those bytes.  Hence
    what the server writes for a line that decodes to [text] is itself
    valid UTF-8 and decodes to [text.replace("TX", "RX")], a text of as
    many characters as [text]. *)
Theorem X6_codec_round_trip
  (self : Interface) (w : World) (l : bytes) (p : Serial.Port) (text : str) :
  Serial.readline (port w) = (l, p) ->
  utf8_decode l = Some text ->
  (forall bs s, utf8_decode bs = Some s <-> utf8_encode s = Some bs) /\
  (exists d,
     traffic w (fst (echo_server_pass self w))
       = [Serial.ReadLine l; Serial.Wrote d]
     /\ utf8_decode d = Some (str_replace text (s_lit "TX") (s_lit "RX"))) /\
  List.length (str_replace text (s_lit "TX") (s_lit "RX")) = List.length text.
Proof.
  intros Hr Hd.
  assert (Hrt : forall bs s, utf8_decode bs = Some s <-> utf8_encode s = Some bs).
  { intros bs s. split; intros H.
    - apply utf8_encode_of_utf8.
      apply (utf8_decode_sound (List.length bs)); [lia | assumption].
    - apply utf8_decode_of_utf8, utf8_of_encode, H. }
  split; [exact Hrt|]. split.
  - exists (tx_to_rx l). split.
    + rewrite echo_server_pass_eq, Hr, Hd. apply traffic_app. cbn [fst port].
      rewrite log_write, (log_readline _ _ _ Hr), <- app_assoc. reflexivity.
    + apply Hrt, response_bytes, Hd.
  - rewrite str_replace_TX. clear. induction text as [|c r IH]; [reflexivity|].
    cbn [TX_to_RX List.length]. rewrite IH. reflexivity.
Qed.

Lemma X6_codec_round_trip_witness :
  List.length (str_replace [0x54; 0x58; 0x20AC; 10] (s_lit "TX") (s_lit "RX"))
  = 4%nat.
Proof.
  apply (X6_codec_round_trip an_interface
           (line_with [] [[x54; x58; xe2; x82; xac; x0a]])
           [x54; x58; xe2; x82; xac; x0a]
           (snd (Serial.readline
                   (port (line_with [] [[x54; x58; xe2; x82; xac; x0a]]))))
           [0x54; 0x58; 0x20AC; 10]);
    vm_compute; reflexivity.
Defined.

Lemma writes_of_served_filter (ls : list bytes) :
  Serial.writes_of (flat_map served ls) = map tx_to_rx (filter decodes ls).
Proof.
  induction ls as [|l ls IH]; [reflexivity|].
  cbn [flat_map filter]. rewrite writes_of_app, IH.
  unfold served, decodes. destruct (utf8_decode l); reflexivity.
Qed.

Lemma diagnosed_filter (ls : list bytes) :
  flat_map diagnosed ls
  = map Failed_to_decode_payload (filter (fun l => negb (decodes l)) ls).
Proof.
  induction ls as [|l ls IH]; [reflexivity|].
  cbn [flat_map filter]. rewrite IH.
  unfold diagnosed, decodes. destruct (utf8_decode l); reflexivity.
Qed.

(** X7.  Over any number of passes the server reads one line per pass;
    its writes are, in the order of reading, the answers to the lines
    that decode, one each; its reports on [sys.stderr] are, in the
    order of reading, the lines that do not decode, one each; and it
    prints nothing on [sys.stdout]. *)
Theorem X7_server_run (passes : nat) (self : Interface) (w : World) :
  List.length (Serial.lines_of (server_traffic passes self w)) = passes /\
  Serial.writes_of (server_traffic passes self w)
    = map tx_to_rx
          (filter decodes (Serial.lines_of (server_traffic passes self w))) /\
  stderr (fst (echo_server passes self w))
    = stderr w
      ++ map Failed_to_decode_payload
           (filter (fun l => negb (decodes l))
                   (Serial.lines_of (server_traffic passes self w))) /\
  stdout (fst (echo_server passes self w)) = stdout w.
Proof.
  destruct (echo_server_trace passes self w) as (ls & _ & _ & Hout & _).
  destruct (echo_server_traffic passes self w) as (Ht & Hlen & Herr).
  split; [assumption|]. split.
  - rewrite Ht at 1. apply writes_of_served_filter.
  - split; [|assumption]. rewrite Herr, diagnosed_filter. reflexivity.
Qed.

Lemma readline_silent (p : Serial.Port) :
  silent p -> Serial.readline p = ([], Serial.set_io p [] [] [Serial.ReadLine []]).
Proof. intros [Hb Hi]. unfold Serial.readline. rewrite Hb, Hi. reflexivity. Qed.

(** X8.  On a line on which nothing is buffered and nothing arrives,
    every read of the server times out with no byte, and the server
    answers each of them by writing the empty payload: the empty read
    decodes, so nothing is reported, and the line stays as it is. *)
Theorem X8_server_on_silent_line (passes : nat) (self : Interface) :
  forall w : World,
  silent (port w) ->
  server_traffic passes self w
    = List.concat (repeat [Serial.ReadLine []; Serial.Wrote []] passes) /\
  stderr (fst (echo_server passes self w)) = stderr w /\
  silent (port (fst (echo_server passes self w))).
Proof.
  induction passes as [|n IH]; intros w Hs.
  - cbn [echo_server repeat List.concat]. unfold ret. cbn [fst].
    split; [apply traffic_same_log; reflexivity|]. split; [reflexivity | exact Hs].
  - assert (Hstep : echo_server (S n) self w
      = echo_server n self
          {| port := Serial.write []
                       (Serial.set_io (port w) [] [] [Serial.ReadLine []]);
             stdout := stdout w; stderr := stderr w |}).
    { rewrite echo_server_S, echo_server_pass_eq, (readline_silent _ Hs).
      reflexivity. }
    destruct (IH {| port := Serial.write []
                              (Serial.set_io (port w) [] [] [Serial.ReadLine []]);
                    stdout := stdout w; stderr := stderr w |})
      as (Ht & Herr & Hs'); [split; reflexivity|].
    unfold server_traffic in *. rewrite Hstep.
    split; [|split; assumption].
    destruct (echo_server_trace n self
                {| port := Serial.write []
                             (Serial.set_io (port w) [] [] [Serial.ReadLine []]);
                   stdout := stdout w; stderr := stderr w |})
      as (ls & _ & _ & _ & _ & Hlog).
    rewrite (traffic_app _ _ _ Hlog) in Ht.
    apply traffic_app. rewrite Hlog, Ht.
    cbn [port Serial.write Serial.set_io Serial.log repeat List.concat].
    rewrite <- !app_assoc. reflexivity.
Qed.

Lemma X8_server_on_silent_line_witness :
  server_traffic 2 an_interface (line_with [] [])
  = [Serial.ReadLine []; Serial.Wrote []; Serial.ReadLine []; Serial.Wrote []].
Proof.
  apply (X8_server_on_silent_line 2 an_interface (line_with [] [])).
  split; reflexivity.
Defined.

End ServerRuns.

(* ===================================================================== *)
(** * The adapters and [main] *)
(* ===================================================================== *)

Section Main.

Lemma echo_client_result_cases (self : Interface) (arg : option Z) (w : World) :
  snd (echo_client self arg w) = inr tt
  \/ exists r k,
       snd (echo_client self arg w)
       = inl (InvalidSerial5Reponse r (expected_bytes k)).
Proof.
  rewrite echo_client_unfold.
  destruct (for_each_runs (Z.to_nat (num_runs_of arg + 1)) 0 w)
    as (rs & _ & _ & _ & Hres).
  cbv zeta in Hres.
  destruct Hres as [(Hr & _) | (rs1 & r & _ & _ & _ & _ & Hr)];
    [left; assumption | right; eauto].
Qed.

(** [main] in client mode after the constructor returned, statement by
    statement. *)
Lemma main_client_eq
  (passes : nat) (args : Args) (w0 w : World) (self : Interface) :
  mode args = client ->
  (if rs485 args
   then RS485Interface_init (args_device args) (baud args) (response_timeout args)
   else SerialInterface_init (args_device args) (baud args) (response_timeout args))
    w0 = (w, inr self) ->
  main passes args w0 =
  match echo_client self None w with
  | (w1, inr _) =>
    ({| port := port w1; stdout := stdout w1 ++ [TEST_OK]; stderr := stderr w1 |},
     inr Returned)
  | (w1, inl e) =>
    if is_Exception e
    then ({| port := port w1; stdout := stdout w1 ++ [ERROR e];
             stderr := stderr w1 |}, inl (SystemExit (Some 1)))
    else (w1, inl e)
  end.
Proof.
  intros Hmode Hctor. unfold main. unfold bind at 1. rewrite Hctor, Hmode.
  unfold bind, try_except.
  destruct (echo_client self None w) as [w1 [e | []]].
  - destruct (is_Exception e); reflexivity.
  - reflexivity.
Qed.

(** X9.  [main] in client mode, once the adapter is constructed.  When
    the call [echo_client()] returns, [main] prints [TEST OK] and
    returns; when it raises, [main] prints [ERROR] with the exception,
    which is an [InvalidSerial5Reponse], and exits with status 1
    without printing [TEST OK].  Nothing goes to [sys.stderr]. *)
Theorem X9_main_client_mode
  (passes : nat) (args : Args) (w0 w : World) (self : Interface) :
  mode args = client ->
  (if rs485 args
   then RS485Interface_init (args_device args) (baud args) (response_timeout args)
   else SerialInterface_init (args_device args) (baud args) (response_timeout args))
    w0 = (w, inr self) ->
  (client_result self None w = inr tt ->
     snd (main passes args w0) = inr Returned
     /\ stdout (fst (main passes args w0)) = stdout w ++ [TEST_OK]) /\
  (forall e, client_result self None w = inl e ->
     snd (main passes args w0) = inl (SystemExit (Some 1))
     /\ stdout (fst (main passes args w0)) = stdout w ++ [ERROR e]
     /\ exists r k, e = InvalidSerial5Reponse r (expected_bytes k)) /\
  stderr (fst (main passes args w0)) = stderr w.
Proof.
  intros Hmode Hctor.
  destruct (echo_client_trace self None w) as (_ & Hout & Herr & _).
  pose proof (echo_client_result_cases self None w) as Hcases.
  unfold client_result.
  rewrite (main_client_eq passes args w0 w self Hmode Hctor).
  destruct (echo_client self None w) as [w1 [e | []]]; cbn [fst snd] in *.
  - destruct Hcases as [Hc | (r & k & Hc)]; [discriminate|].
    apply (f_equal (fun x => match x with inl y => y | inr _ => e end)) in Hc.
    subst e. cbn [is_Exception fst snd stdout stderr].
    split; [discriminate|]. split; [|assumption].
    intros e He. assert (e = InvalidSerial5Reponse r (expected_bytes k))
      by congruence. subst e.
    split; [reflexivity|]. split; [congruence | eauto].
  - cbn [fst snd stdout stderr].
    split; [|split; [discriminate | assumption]].
    intros _. split; [reflexivity | congruence].
Qed.

Lemma X9_main_client_mode_witness :
  snd (main 0
         {| args_device := "/dev/ttyUSB0"; baud := 115200; rs485 := true;
            response_timeout := 3; mode := client |}
         stale_line)
  = inl (SystemExit (Some 1)).
Proof.
  apply (proj1 (proj2 (X9_main_client_mode 0
           {| args_device := "/dev/ttyUSB0"; baud := 115200; rs485 := true;
              response_timeout := 3; mode := client |}
           stale_line
           (fst (RS485Interface_init "/dev/ttyUSB0" 115200 3 stale_line))
           an_interface eq_refl eq_refl))
         (InvalidSerial5Reponse [] (line "RX_run_1"))).
  vm_compute. reflexivity.
Defined.

(** X10.  [main] in server mode, once the adapter is constructed: it is
    the server loop and nothing else; it never returns, never exits and
    prints nothing on [sys.stdout]. *)
Theorem X10_main_server_mode
  (passes : nat) (args : Args) (w0 w : World) (self : Interface) :
  mode args = server ->
  (if rs485 args
   then RS485Interface_init (args_device args) (baud args) (response_timeout args)
   else SerialInterface_init (args_device args) (baud args) (response_timeout args))
    w0 = (w, inr self) ->
  snd (main passes args w0) = inr Serving /\
  fst (main passes args w0) = fst (echo_server passes self w) /\
  stdout (fst (main passes args w0)) = stdout w.
Proof.
  intros Hmode Hctor.
  destruct (echo_server_trace passes self w) as (ls & _ & Hrun & Hout & _).
  assert (E : main passes args w0
              = (fst (echo_server passes self w), inr Serving)).
  { unfold main. unfold bind at 1. rewrite Hctor, Hmode. unfold bind.
    destruct (echo_server passes self w) as [w1 [e | []]];
      cbn [snd] in Hrun; [discriminate | reflexivity]. }
  rewrite E. cbn [fst snd]. split; [reflexivity|]. split; [reflexivity | assumption].
Qed.

Lemma X10_main_server_mode_witness :
  snd (main 3
         {| args_device := "/dev/ttyUSB0"; baud := 115200; rs485 := true;
            response_timeout := 3; mode := server |}
         stale_line)
  = inr Serving.
Proof.
  apply (X10_main_server_mode 3
           {| args_device := "/dev/ttyUSB0"; baud := 115200; rs485 := true;
              response_timeout := 3; mode := server |}
           stale_line
           (fst (RS485Interface_init "/dev/ttyUSB0" 115200 3 stale_line))
           an_interface eq_refl eq_refl).
Defined.


(** X12.  Without [--rs485], on a line on which bytes arrive while the
    port is being opened, after the reset of the input buffer, [main]
    ends with the [NameError] of the constructor in either mode: the
    [try] of the client mode does not cover the constructor; nothing is
    printed, and nothing is written or read. *)
Theorem X12_main_plain_adapter_buffered
  (passes : nat) (args : Args) (w0 : World) :
  rs485 args = false ->
  Serial.on_open (port w0) <> [] ->
  snd (main passes args w0) = inl (NameError "ser") /\
  stdout (fst (main passes args w0)) = stdout w0 /\
  stderr (fst (main passes args w0)) = stderr w0 /\
  traffic w0 (fst (main passes args w0)) = [].
Proof.
  intros Hrs Hbuf.
  destruct (SerialInterface_init_buffered (args_device args) (baud args)
              (response_timeout args) w0 Hbuf) as (Hres & _ & Ht).
  assert (E : main passes args w0
              = (fst (SerialInterface_init (args_device args) (baud args)
                        (response_timeout args) w0), inl (NameError "ser"))).
  { unfold main. unfold bind at 1. rewrite Hrs.
    destruct (SerialInterface_init (args_device args) (baud args)
                (response_timeout args) w0) as [w1 [e | i]];
      cbn [fst snd] in *; [congruence | discriminate]. }
  rewrite E. cbn [fst snd].
  rewrite SerialInterface_init_eq in *. cbn [fst stdout stderr] in *.
  repeat split. assumption.
Qed.

Lemma X12_main_plain_adapter_buffered_witness :
  snd (main 5
         {| args_device := "/dev/ttyUSB0"; baud := 115200; rs485 := false;
            response_timeout := 3; mode := server |}
         racing_line)
  = inl (NameError "ser").
Proof.
  apply (X12_main_plain_adapter_buffered 5
           {| args_device := "/dev/ttyUSB0"; baud := 115200; rs485 := false;
              response_timeout := 3; mode := server |}
           racing_line eq_refl).
  vm_compute. discriminate.
Defined.

End Main.
